(** * The world-map country extractor: a shallow embedding and its properties

    The program reads an SVG world map, builds one record (a Python dict from
    field name to text) per [path] element, and writes the records out as JSON
    and CSV, with a console preview.  Extraction has two strategies: an XML
    parse, and a regular-expression scan used when the XML parse reports a
    parse error.

    Python text is a sequence of Unicode code points, so text is modelled as
    [list N]; slicing, padding, [len] and the regular expressions all work on
    code points.  A dict keeps its insertion order (which [json.dump] shows),
    so it is an association list updated in place. *)

From Stdlib Require Import Strings.String Strings.Ascii DecimalString.
From Stdlib Require Import List NArith ZArith Lia Bool Arith.
From Stdlib Require Import Sorting.Sorted Sorting.Permutation.
Import ListNotations.

Local Open Scope N_scope.

(** ** Text *)

Module Text.

Definition char := N.
Definition str := list char.

Fixpoint bytes_of (s : String.string) : list N :=
  match s with
  | String.EmptyString => []
  | String.String a r => Ascii.N_of_ascii a :: bytes_of r
  end.

(** Source literals are UTF-8 in the file; [utf8_decode] turns their bytes
    into code points (sequences cut short decode to nothing). *)
Fixpoint utf8_decode (b : list N) : str :=
  match b with
  | [] => []
  | b0 :: r0 =>
    if b0 <? 128 then b0 :: utf8_decode r0
    else match r0 with
    | [] => []
    | b1 :: r1 =>
      if b0 <? 224 then ((b0 - 192) * 64 + (b1 - 128)) :: utf8_decode r1
      else match r1 with
      | [] => []
      | b2 :: r2 =>
        if b0 <? 240
        then ((b0 - 224) * 4096 + (b1 - 128) * 64 + (b2 - 128)) :: utf8_decode r2
        else match r2 with
        | [] => []
        | b3 :: r3 =>
          ((b0 - 240) * 262144 + (b1 - 128) * 4096 + (b2 - 128) * 64 + (b3 - 128))
            :: utf8_decode r3
        end
      end
    end
  end.

Definition py (s : String.string) : str := utf8_decode (bytes_of s).
Arguments py s%_string.

(** The double quote, which no literal can hold. *)
Definition dq : char := 34.

Fixpoint str_eqb (a b : str) : bool :=
  match a, b with
  | [], [] => true
  | x :: a', y :: b' => (x =? y) && str_eqb a' b'
  | _, _ => false
  end.

(** [s.startswith(p)], returning what follows the prefix. *)
Fixpoint strip_prefix (p s : str) : option str :=
  match p, s with
  | [], _ => Some s
  | x :: p', y :: s' => if x =? y then strip_prefix p' s' else None
  | _ :: _, [] => None
  end.

Definition starts_with (p s : str) : bool :=
  match strip_prefix p s with Some _ => true | None => false end.

(** [p in s] *)
Fixpoint contains (p s : str) : bool :=
  starts_with p s || match s with [] => false | _ :: s' => contains p s' end.

(** Truthiness of a str: non-empty. *)
Definition truthy (s : str) : bool :=
  match s with [] => false | _ :: _ => true end.

(** [str(n)] for a non-negative int. *)
Definition str_of_N (n : N) : str :=
  bytes_of (NilEmpty.string_of_uint (N.to_uint n)).

(** [str(z)] for an int. *)
Definition str_of_Z (z : Z) : str :=
  match z with
  | Zneg p => py "-" ++ str_of_N (Npos p)
  | _ => str_of_N (Z.to_N z)
  end.

(** The format spec [:<w]: left-aligned, padded with spaces to width [w]. *)
Definition ljust (w : nat) (s : str) : str :=
  s ++ repeat 32 (w - length s)%nat.

(** Lexicographic order on code points: Python's [<] on str. *)
Fixpoint str_ltb (a b : str) : bool :=
  match a, b with
  | _, [] => false
  | [], _ :: _ => true
  | x :: a', y :: b' => (x <? y) || ((x =? y) && str_ltb a' b')
  end.

Definition str_leb (a b : str) : bool := negb (str_ltb b a).

End Text.
Import Text.

(** ** Dicts *)

Module Dict.
Section WithValue.
Context {V : Type}.

Definition dict := list (str * V).

(** [d.get(k)] *)
Fixpoint get (d : dict) (k : str) : option V :=
  match d with
  | [] => None
  | (k', v) :: r => if str_eqb k' k then Some v else get r k
  end.

(** [d.get(k, dflt)] *)
Definition get_or (d : dict) (k : str) (dflt : V) : V :=
  match get d k with Some v => v | None => dflt end.

(** [d[k] = v]: an existing key keeps its place, a new key goes last. *)
Fixpoint set (d : dict) (k : str) (v : V) : dict :=
  match d with
  | [] => [(k, v)]
  | (k', v') :: r =>
    if str_eqb k' k then (k', v) :: r else (k', v') :: set r k v
  end.

Definition keys (d : dict) : list str := map fst d.

(** A dict holds each key once. *)
Definition wf (d : dict) : Prop := NoDup (keys d).

End WithValue.
Arguments dict : clear implicits.
End Dict.

Definition record := Dict.dict str.

(** The six fields of a record, in the order the XML strategy sets them. *)
Definition f_id : str := py "id".
Definition f_name_zh : str := py "name_zh".
Definition f_name_en : str := py "name_en".
Definition f_formal_en : str := py "formal_en".
Definition f_type : str := py "type".
Definition f_sovereignty : str := py "sovereignty".

(** The attributes read from a path element. *)
Definition a_id : str := py "id".
Definition a_name_zht : str := py "data-name_zht".
Definition a_name_zh : str := py "data-name_zh".
Definition a_name_en : str := py "data-name_en".
Definition a_formal_en : str := py "data-formal_en".
Definition a_type : str := py "data-type".
Definition a_sovereignt : str := py "data-sovereignt".

(** [d.get(k)] used as a condition: [None] and [''] are false. *)
Definition truthy_get (d : record) (k : str) : bool :=
  match Dict.get d k with Some v => truthy v | None => false end.

(** [d[k]] where the key is known to be there (no [KeyError] path is
    reachable at its uses below). *)
Definition item (d : record) (k : str) : str := Dict.get_or d k [].

(** The test both strategies apply before [countries.append]. *)
Definition has_name (country_info : record) : bool :=
  truthy_get country_info f_name_zh || truthy_get country_info f_name_en.

(** ** The regular expressions of the fallback strategy *)

Module Regex.

(** [\s] on str patterns: the Unicode whitespace code points. *)
Definition is_space (c : char) : bool :=
  ((9 <=? c) && (c <=? 13)) || ((28 <=? c) && (c <=? 32))
  || (c =? 133) || (c =? 160) || (c =? 5760)
  || ((8192 <=? c) && (c <=? 8202))
  || (c =? 8232) || (c =? 8233) || (c =? 8239) || (c =? 8287) || (c =? 12288).

(** Under [re.IGNORECASE] a lower-case ASCII letter of the pattern matches
    itself and its capital (no other code point folds to p, a, t or h), and
    [<] matches itself. *)
Definition fold_case (c : char) : char :=
  if (65 <=? c) && (c <=? 90) then c + 32 else c.

Fixpoint strip_prefix_ci (p s : str) : option str :=
  match p, s with
  | [], _ => Some s
  | x :: p', y :: s' => if x =? fold_case y then strip_prefix_ci p' s' else None
  | _ :: _, [] => None
  end.

(** The text before the first occurrence of [stop], or [None] when [stop]
    does not occur: what [[^stop]*] followed by [stop] matches. *)
Fixpoint until (stop : char) (s : str) : option str :=
  match s with
  | [] => None
  | c :: s' =>
    if c =? stop then Some []
    else match until stop s' with Some b => Some (c :: b) | None => None end
  end.

Definition gt : char := 62.

(** One attempt of [<path\s+[^>]*>] at the start of [s].  A white-space code
    point is not [>], so the attempt succeeds exactly when [<path] (any case)
    is followed by white space and a [>] comes later; the match ends at the
    first [>]. *)
Definition match_path_tag (s : str) : option str :=
  match strip_prefix_ci (py "<path") s with
  | Some (c :: rest) =>
    if is_space c then
      match until gt rest with
      | Some body => Some (firstn 5 s ++ c :: body ++ [gt])
      | None => None
      end
    else None
  | _ => None
  end.

(** [re.findall]: left to right, matches do not overlap; [skip] counts the
    code points of the last match still to be passed over. *)
Fixpoint findall_from (skip : nat) (s : str) : list str :=
  match s with
  | [] => []
  | _ :: s' =>
    match skip with
    | S k => findall_from k s'
    | O =>
      match match_path_tag s with
      | Some m => m :: findall_from (length m - 1) s'
      | None => findall_from 0 s'
      end
    end
  end.

Definition findall_path_tags (content : str) : list str := findall_from 0 content.

(** The attribute pattern (the name, an equals sign, a double quote, a group
    of any code points but the double quote, a double quote) tried at the
    start of [s]; the result is group 1. *)
Definition match_attr (name s : str) : option str :=
  match strip_prefix (name ++ py "=" ++ [dq]) s with
  | Some rest => until dq rest
  | None => None
  end.

(** [re.search] with the attribute pattern, then [.group(1)]: the leftmost
    position where the pattern matches. *)
Fixpoint search_attr (name s : str) : option str :=
  match match_attr name s with
  | Some v => Some v
  | None => match s with [] => None | _ :: s' => search_attr name s' end
  end.

End Regex.

(** ** Record construction *)

(** A path element as [ElementTree] gives it: its attribute dict. *)
Definition element := Dict.dict str.

(** Lines 33-47: the body of the loop over parsed path elements. *)
Definition xml_country_info (path : element) : record :=
  let country_info : record := [] in
  let country_info := Dict.set country_info f_id (Dict.get_or path a_id []) in
  let country_info :=
    Dict.set country_info f_name_zh
      (Dict.get_or path a_name_zht (Dict.get_or path a_name_zh [])) in
  let country_info := Dict.set country_info f_name_en (Dict.get_or path a_name_en []) in
  let country_info := Dict.set country_info f_formal_en (Dict.get_or path a_formal_en []) in
  let country_info := Dict.set country_info f_type (Dict.get_or path a_type []) in
  let country_info :=
    Dict.set country_info f_sovereignty (Dict.get_or path a_sovereignt []) in
  if negb (truthy (item country_info f_name_zh)) && truthy (item country_info f_id)
  then Dict.set country_info f_name_zh (item country_info f_id)
  else country_info.

(** Lines 32-51: the loop, appending the records that have a name. *)
Definition xml_countries (paths : list element) : list record :=
  filter has_name (map xml_country_info paths).

(** [if m: country_info[field] = m.group(1)] *)
Definition set_if_match (country_info : record) (field : str) (m : option str) : record :=
  match m with
  | Some v => Dict.set country_info field v
  | None => country_info
  end.

(** Lines 83-116: the body of the loop over matched tags. *)
Definition regex_country_info (path_tag : str) : record :=
  let country_info : record := [] in
  let country_info := set_if_match country_info f_id (Regex.search_attr a_id path_tag) in
  let country_info :=
    match Regex.search_attr a_name_zht path_tag with
    | Some v => Dict.set country_info f_name_zh v
    | None =>
      match Regex.search_attr a_name_zh path_tag with
      | Some v => Dict.set country_info f_name_zh v
      | None =>
        if truthy_get country_info f_id
        then Dict.set country_info f_name_zh (item country_info f_id)
        else country_info
      end
    end in
  let country_info :=
    set_if_match country_info f_name_en (Regex.search_attr a_name_en path_tag) in
  let country_info :=
    set_if_match country_info f_formal_en (Regex.search_attr a_formal_en path_tag) in
  let country_info :=
    set_if_match country_info f_type (Regex.search_attr a_type path_tag) in
  let country_info :=
    set_if_match country_info f_sovereignty (Regex.search_attr a_sovereignt path_tag) in
  country_info.

(** Lines 78-120: find the tags, build the records, keep those with a name. *)
Definition regex_countries (content : str) : list record :=
  filter has_name (map regex_country_info (Regex.findall_path_tags content)).

(** An attribute as it is written in a tag: a space, the name, an equals
    sign and the value between double quotes. *)
Definition attr_text (kv : str * str) : str :=
  py " " ++ fst kv ++ py "=" ++ [dq] ++ snd kv ++ [dq].

Definition tag_text (attrs : element) : str :=
  py "<path" ++ concat (map attr_text attrs) ++ py ">".

(** ** Effects: exceptions, the console and the files written *)

Inductive exn_kind :=
| ParseError          (* xml.etree.ElementTree.ParseError *)
| OSError             (* FileNotFoundError, PermissionError, ... *)
| UnicodeError        (* UnicodeDecodeError, UnicodeEncodeError *)
| ValueError.

(** An exception: its class and [str(e)]. *)
Record exn := { kind : exn_kind; message : str }.

Inductive outcome (A : Type) :=
| Return (a : A)
| Raise (e : exn).
Arguments Return {A} a.
Arguments Raise {A} e.

(** What a file holds after a [with open(..., 'w')] block: the whole text, or,
    when a write raised part-way, some prefix of it. *)
Inductive file :=
| Whole (text : str)
| Prefix_of (text : str).

(** The observable state: the lines printed so far (oldest first) and the
    files written (latest first). *)
Record world := { console : list str; files : list (str * file) }.

Definition M (A : Type) := world -> world * outcome A.

Definition ret {A} (a : A) : M A := fun w => (w, Return a).

Definition bind {A B} (m : M A) (k : A -> M B) : M B :=
  fun w => match m w with
           | (w', Return a) => k a w'
           | (w', Raise e) => (w', Raise e)
           end.

Notation "x <- m ;; k" := (bind m (fun x => k))
  (at level 61, m at next level, right associativity).
Notation "m ;;; k" := (bind m (fun _ => k))
  (at level 61, right associativity).

Definition raise {A} (e : exn) : M A := fun w => (w, Raise e).

Definition lift {A} (o : outcome A) : M A := fun w => (w, o).

(** [print(line)] *)
Definition print (line : str) : M unit :=
  fun w => ({| console := console w ++ [line]; files := files w |}, Return tt).

(** [try: m  except <the classes handler accepts> as e: handler e]; an
    exception the handler does not accept goes on to the caller. *)
Definition try_except {A} (m : M A) (handler : exn -> option (M A)) : M A :=
  fun w => match m w with
           | (w', Return a) => (w', Return a)
           | (w', Raise e) =>
             match handler e with
             | Some h => h w'
             | None => (w', Raise e)
             end
           end.

(** [for x in xs: body x] *)
Fixpoint for_each {A} (xs : list A) (body : A -> M unit) : M unit :=
  match xs with
  | [] => ret tt
  | x :: r => body x ;;; for_each r body
  end.

Definition empty_world : world := {| console := []; files := [] |}.

(** Code points that the UTF-8 codecs refuse: the surrogates. *)
Definition encodable (c : char) : bool := (c <? 55296) || (57343 <? c).

(** ** JSON text, as [json.dump(..., ensure_ascii=False, indent=2)] writes it *)

Module Json.

Definition hex_digit (n : N) : char := if n <? 10 then 48 + n else 87 + n.

(** [ensure_ascii=False]: only the double quote, the backslash and the
    control characters below U+0020 are escaped. *)
Definition escape_char (c : char) : str :=
  if c =? 34 then [92; 34]
  else if c =? 92 then [92; 92]
  else if c =? 10 then [92; 110]
  else if c =? 13 then [92; 114]
  else if c =? 9 then [92; 116]
  else if c =? 8 then [92; 98]
  else if c =? 12 then [92; 102]
  else if c <? 32 then [92; 117; 48; 48; hex_digit (c / 16); hex_digit (c mod 16)]
  else [c].

Definition dumps_str (s : str) : str := dq :: flat_map escape_char s ++ [dq].

Fixpoint join (sep : str) (parts : list str) : str :=
  match parts with
  | [] => []
  | [p] => p
  | p :: r => p ++ sep ++ join sep r
  end.

Definition newline_indent (level : nat) : str := 10 :: repeat 32 (2 * level)%nat.

Definition dumps_member (kv : str * str) : str :=
  dumps_str (fst kv) ++ py ": " ++ dumps_str (snd kv).

Definition dumps_dict (level : nat) (d : record) : str :=
  match d with
  | [] => py "{}"
  | _ =>
    py "{" ++ newline_indent (S level)
    ++ join (py "," ++ newline_indent (S level)) (map dumps_member d)
    ++ newline_indent level ++ py "}"
  end.

Definition dumps (countries : list record) : str :=
  match countries with
  | [] => py "[]"
  | _ =>
    py "[" ++ newline_indent 1
    ++ join (py "," ++ newline_indent 1) (map (dumps_dict 1) countries)
    ++ newline_indent 0 ++ py "]"
  end.

(** *** Reading it back

    A JSON reader for the documents a record sequence can be: an array of
    objects whose members are strings.  White space is skipped where JSON
    allows it, all string escapes are understood, a repeated key keeps its
    first place and its last value (as a Python dict does), and anything
    after the array is refused. *)

Definition is_ws (c : char) : bool :=
  (c =? 32) || (c =? 9) || (c =? 10) || (c =? 13).

Fixpoint skip_ws (s : str) : str :=
  match s with
  | c :: r => if is_ws c then skip_ws r else s
  | [] => []
  end.

Definition hex_val (c : char) : option N :=
  if (48 <=? c) && (c <=? 57) then Some (c - 48)
  else if (97 <=? c) && (c <=? 102) then Some (c - 87)
  else if (65 <=? c) && (c <=? 70) then Some (c - 55)
  else None.

Definition hex4 (a b c d : char) : option N :=
  match hex_val a, hex_val b, hex_val c, hex_val d with
  | Some x, Some y, Some z, Some t => Some (((x * 16 + y) * 16 + z) * 16 + t)
  | _, _, _, _ => None
  end.

Definition unescape (e : char) : option char :=
  if e =? 34 then Some 34
  else if e =? 92 then Some 92
  else if e =? 47 then Some 47
  else if e =? 98 then Some 8
  else if e =? 102 then Some 12
  else if e =? 110 then Some 10
  else if e =? 114 then Some 13
  else if e =? 116 then Some 9
  else None.

Definition push (c : char) (r : option (str * str)) : option (str * str) :=
  match r with
  | Some (s, rest) => Some (c :: s, rest)
  | None => None
  end.

Definition is_high (v : N) : bool := (55296 <=? v) && (v <=? 56319).
Definition is_low (v : N) : bool := (56320 <=? v) && (v <=? 57343).

(** The body of a string, from just after its opening quote: the decoded
    text and what follows the closing quote. *)
Fixpoint scan_string (s : str) : option (str * str) :=
  match s with
  | [] => None
  | c :: r =>
    if c =? 34 then Some ([], r)
    else if c =? 92 then
      match r with
      | [] => None
      | e :: r1 =>
        if e =? 117 then
          match r1 with
          | h1 :: h2 :: h3 :: h4 :: r2 =>
            match hex4 h1 h2 h3 h4 with
            | None => None
            | Some v =>
              match r2 with
              | b :: u :: g1 :: g2 :: g3 :: g4 :: r3 =>
                (* a high surrogate escape followed by a low one is one
                   code point *)
                match (if (b =? 92) && (u =? 117) then hex4 g1 g2 g3 g4 else None) with
                | Some l =>
                  if is_high v && is_low l
                  then push (65536 + (v - 55296) * 1024 + (l - 56320)) (scan_string r3)
                  else push v (scan_string r2)
                | None => push v (scan_string r2)
                end
              | _ => push v (scan_string r2)
              end
            end
          | _ => None
          end
        else
          match unescape e with
          | Some v => push v (scan_string r1)
          | None => None
          end
      end
    else if c <? 32 then None
    else push c (scan_string r)
  end.

(** A string with its quotes. *)
Definition read_string (s : str) : option (str * str) :=
  match s with
  | 34 :: r => scan_string r
  | _ => None
  end.

(** The members of an object from the first key on, up to and including the
    closing brace. *)
Fixpoint read_members (fuel : nat) (acc : record) (s : str) : option (record * str) :=
  match fuel with
  | O => None
  | S fuel' =>
    match read_string s with
    | None => None
    | Some (k, s1) =>
      match skip_ws s1 with
      | 58 :: s2 =>
        match read_string (skip_ws s2) with
        | None => None
        | Some (v, s3) =>
          let acc' := Dict.set acc k v in
          match skip_ws s3 with
          | 44 :: s4 => read_members fuel' acc' (skip_ws s4)
          | 125 :: s4 => Some (acc', s4)
          | _ => None
          end
        end
      | _ => None
      end
    end
  end.

Definition read_object (fuel : nat) (s : str) : option (record * str) :=
  match s with
  | 123 :: s1 =>
    match skip_ws s1 with
    | 125 :: s2 => Some ([], s2)
    | s2 => read_members fuel [] s2
    end
  | _ => None
  end.

(** The elements of an array from the first one on, up to and including the
    closing bracket. *)
Fixpoint read_elements (fuel : nat) (s : str) : option (list record * str) :=
  match fuel with
  | O => None
  | S fuel' =>
    match read_object fuel' s with
    | None => None
    | Some (d, s1) =>
      match skip_ws s1 with
      | 44 :: s2 =>
        match read_elements fuel' (skip_ws s2) with
        | Some (ds, s3) => Some (d :: ds, s3)
        | None => None
        end
      | 93 :: s2 => Some ([d], s2)
      | _ => None
      end
    end
  end.

Definition read_array (fuel : nat) (s : str) : option (list record * str) :=
  match s with
  | 91 :: s1 =>
    match skip_ws s1 with
    | 93 :: s2 => Some ([], s2)
    | s2 => read_elements fuel s2
    end
  | _ => None
  end.

(** [json.loads(text)], for a text that is a record sequence. *)
Definition loads (text : str) : option (list record) :=
  match read_array (S (length text)) (skip_ws text) with
  | Some (ds, rest) =>
    match skip_ws rest with
    | [] => Some ds
    | _ :: _ => None
    end
  | None => None
  end.

End Json.

(** ** CSV text, as [csv.DictWriter] writes it (the default excel dialect) *)

Module Csv.

Definition crlf : str := [13; 10].

(** The code points that make the writer quote a field: the delimiter, the
    quote character and the characters of the line terminator. *)
Definition special (c : char) : bool :=
  (c =? 44) || (c =? 34) || (c =? 13) || (c =? 10).

Definition double_quotes (f : str) : str :=
  flat_map (fun c => if c =? 34 then [34; 34] else [c]) f.

Definition format_field (f : str) : str :=
  if existsb special f then dq :: double_quotes f ++ [dq] else f.

(** [writer.writerow(row)]: a row that is one empty field is written as a
    pair of quotes. *)
Definition format_row (row : list str) : str :=
  match row with
  | [[]] => [dq; dq] ++ crlf
  | _ => Json.join (py ",") (map format_field row) ++ crlf
  end.

(** [DictWriter._dict_to_list] with [extrasaction='raise'] and
    [restval='']. *)
Definition dict_to_list (fieldnames : list str) (rowdict : record) : outcome (list str) :=
  if forallb (fun k => existsb (str_eqb k) fieldnames) (Dict.keys rowdict)
  then Return (map (fun key => Dict.get_or rowdict key []) fieldnames)
  else Raise {| kind := ValueError;
                (* the message goes on to list the offending keys *)
                message := py "dict contains fields not in fieldnames" |}.

(** [DictWriter.writerow(rowdict)]: the text written, if any. *)
Definition writerow (fieldnames : list str) (rowdict : record) : outcome str :=
  match dict_to_list fieldnames rowdict with
  | Return row => Return (format_row row)
  | Raise e => Raise e
  end.

(** [DictWriter.writeheader()] *)
Definition writeheader (fieldnames : list str) : outcome str :=
  writerow fieldnames (combine fieldnames fieldnames).

End Csv.

(** Line 158. *)
Definition fields : list str :=
  [f_id; f_name_zh; f_name_en; f_formal_en; f_type; f_sovereignty].

(** Line 166: [{field: country.get(field, '') for field in fields}] *)
Definition csv_row (country : record) : record :=
  fold_left (fun row field => Dict.set row field (Dict.get_or country field [])) fields [].

(** Lines 161-167 on an open file: the text written so far and, when a row
    raised, the exception that ended the writing. *)
Fixpoint csv_rows (countries : list record) : str * option exn :=
  match countries with
  | [] => ([], None)
  | country :: rest =>
    match Csv.writerow fields (csv_row country) with
    | Raise e => ([], Some e)
    | Return line =>
      let (text, err) := csv_rows rest in (line ++ text, err)
    end
  end.

Definition csv_text (countries : list record) : str * option exn :=
  match Csv.writeheader fields with
  | Raise e => ([], Some e)
  | Return header =>
    let (text, err) := csv_rows countries in (header ++ text, err)
  end.

(** The byte order mark that the [utf-8-sig] codec puts before the first
    text written. *)
Definition bom : char := 65279.

Definition with_bom (text : str) : str :=
  match text with
  | [] => []
  | _ :: _ => bom :: text
  end.

(** ** The console table (lines 175-201) *)

(** [xs[:limit]] *)
Definition slice_to {A} (xs : list A) (limit : Z) : list A :=
  if (limit <? 0)%Z
  then firstn (Z.to_nat (Z.of_nat (length xs) + limit)) xs
  else firstn (Z.to_nat limit) xs.

(** [if limit:] for an [Optional[int]] *)
Definition limit_given (limit : option Z) : bool :=
  match limit with
  | Some z => negb (z =? 0)%Z
  | None => false
  end.

Definition table_rule : str := repeat 45 120.

Definition table_header : str :=
  ljust 4 (py "序号") ++ py " " ++ ljust 12 (py "中文名") ++ py " "
  ++ ljust 20 (py "英文名") ++ py " " ++ ljust 15 (py "类型") ++ py " "
  ++ ljust 20 (py "主权").

Definition table_row (i : nat) (country : record) : str :=
  let name_zh := firstn 10 (Dict.get_or country f_name_zh []) in
  let name_en := firstn 18 (Dict.get_or country f_name_en []) in
  let country_type := firstn 13 (Dict.get_or country f_type []) in
  let sovereignty := firstn 18 (Dict.get_or country f_sovereignty []) in
  ljust 4 (str_of_N (N.of_nat i)) ++ py " " ++ ljust 12 name_zh ++ py " "
  ++ ljust 20 name_en ++ py " " ++ ljust 15 country_type ++ py " "
  ++ ljust 20 sovereignty.

(** [for i, country in enumerate(display_countries, start)] *)
Fixpoint table_rows (start : nat) (display_countries : list record) : list str :=
  match display_countries with
  | [] => []
  | country :: rest => table_row start country :: table_rows (S start) rest
  end.

Definition omitted_line (countries : list record) (limit : Z) : str :=
  py "... 还有 " ++ str_of_Z (Z.of_nat (length countries) - limit) ++ py " 个国家未显示".

(** Line 188. *)
Definition count_line (countries : list record) : str :=
  py "找到 " ++ str_of_N (N.of_nat (length countries)) ++ py " 个国家/地区".

(** The lines [print_countries_table] prints, in order. *)
Definition table_lines (countries : list record) (limit : option Z) : list str :=
  let display_countries :=
    match limit with
    | Some z => if limit_given limit then slice_to countries z else countries
    | None => countries
    end in
  [count_line countries; table_rule; table_header; table_rule]
  ++ table_rows 1 display_countries
  ++ match limit with
     | Some z =>
       if limit_given limit && (z <? Z.of_nat (length countries))%Z
       then [omitted_line countries z]
       else []
     | None => []
     end.

Definition print_countries_table (countries : list record) (limit : option Z) : M unit :=
  for_each (table_lines countries limit) print.

(** ** The type count and the look-ups of [main] (lines 226-242) *)

(** Lines 226-229. *)
Definition count_types (countries : list record) : Dict.dict N :=
  fold_left
    (fun type_counts country =>
       let country_type := Dict.get_or country f_type (py "未知") in
       Dict.set type_counts country_type (Dict.get_or type_counts country_type 0 + 1))
    countries [].

(** [<=] on the [(label, count)] tuples that [sorted] compares. *)
Definition item_leb (a b : str * N) : bool :=
  str_ltb (fst a) (fst b) || (str_eqb (fst a) (fst b) && (snd a <=? snd b)).

Fixpoint insert_sorted (x : str * N) (l : list (str * N)) : list (str * N) :=
  match l with
  | [] => [x]
  | y :: r => if item_leb x y then x :: l else y :: insert_sorted x r
  end.

(** [sorted(type_counts.items())]: the items in increasing order (the labels
    are distinct, so the order of the result does not depend on the sorting
    method). *)
Definition sorted_items (type_counts : Dict.dict N) : list (str * N) :=
  fold_right insert_sorted [] type_counts.

Definition type_line (it : str * N) : str :=
  py "  " ++ fst it ++ py ": " ++ str_of_N (snd it) ++ py "个".

Definition type_report (countries : list record) : list str :=
  map type_line (sorted_items (count_types countries)).

(** [str(d.get(k))]: a missing key prints as None. *)
Definition show_get (d : record) (k : str) : str :=
  match Dict.get d k with Some v => v | None => py "None" end.

Definition search_line (countries : list record) (term : str) : str :=
  let found :=
    filter (fun c => contains term (Dict.get_or c f_name_zh [])
                     || contains term (Dict.get_or c f_name_en [])) countries in
  match found with
  | c :: _ =>
    py "  找到 '" ++ term ++ py "': " ++ show_get c f_name_zh
    ++ py " (" ++ show_get c f_name_en ++ py ")"
  | [] => py "  未找到 '" ++ term ++ py "'"
  end.

Definition search_terms : list str :=
  [py "中国"; py "美国"; py "日本"; py "印度尼西亚"].

(** ** The program against its environment *)

(** The messages of the extractors and the writers (lines 55, 123, 138, 140,
    169 and 173). *)
Definition fallback_notice : str := py "XML 解析失败，尝试使用正则表达式...".
Definition read_failure_notice (e : exn) : str := py "读取文件失败: " ++ message e.
Definition saved_notice (output_file : str) : str :=
  py "国家信息已保存到 " ++ output_file.
Definition json_failure_notice (e : exn) : str := py "保存文件失败: " ++ message e.
Definition csv_failure_notice (e : exn) : str := py "保存 CSV 文件失败: " ++ message e.

(** What [ET.parse(file_path).getroot()] offers to the two [findall] calls:
    the path elements in no namespace and those in the SVG namespace, each in
    document order. *)
Record tree := { plain_paths : list element; svg_paths : list element }.

Section Program.

(** The environment: what parsing a file gives, what reading it as UTF-8 text
    gives, whether a file opens for writing, and the exception raised for a
    text the codec cannot encode. *)
Variable ET_parse : str -> outcome tree.
Variable read_text : str -> outcome str.
Variable open_w : str -> option exn.
Variable encode_error : str -> exn.

(** [with open(path, 'w', ...) as f:] followed by the writing of [text]. *)
Definition write_text (path text : str) : M unit :=
  fun w =>
    match open_w path with
    | Some e => (w, Raise e)
    | None =>
      if forallb encodable text
      then ({| console := console w; files := (path, Whole text) :: files w |},
            Return tt)
      else ({| console := console w; files := (path, Prefix_of text) :: files w |},
            Raise (encode_error text))
    end.

(** Lines 60-125. *)
Definition extract_countries_with_regex (file_path : str) : M (list record) :=
  try_except
    (content <- lift (read_text file_path) ;;
     ret (regex_countries content))
    (fun e => Some (print (read_failure_notice e) ;;; ret [])).

(** Lines 28-30. *)
Definition find_paths (root : tree) : list element :=
  match plain_paths root with
  | [] => svg_paths root
  | paths => paths
  end.

(** Lines 6-58. *)
Definition extract_countries_from_svg (file_path : str) : M (list record) :=
  try_except
    (root <- lift (ET_parse file_path) ;;
     ret (xml_countries (find_paths root)))
    (fun e =>
       match kind e with
       | ParseError =>
         Some (print fallback_notice ;;;
               extract_countries_with_regex file_path)
       | _ => None
       end).

(** Lines 127-140. *)
Definition save_to_json (countries : list record) (output_file : str) : M unit :=
  try_except
    (write_text output_file (Json.dumps countries) ;;;
     print (saved_notice output_file))
    (fun e => Some (print (json_failure_notice e))).

(** Lines 142-173 (the set [all_fields] of lines 154-156 is never read). *)
Definition save_to_csv (countries : list record) (output_file : str) : M unit :=
  try_except
    (let (text, err) := csv_text countries in
     write_text output_file (with_bom text) ;;;
     match err with
     | Some e => raise e
     | None => print (saved_notice output_file)
     end)
    (fun e => Some (print (csv_failure_notice e))).

Definition nl : str := [10].

(** Lines 203-244. *)
Definition main : M unit :=
  let svg_file_path := py "世界地图.svg" in
  print (py "正在从 SVG 文件中提取国家信息...") ;;;
  countries <- extract_countries_from_svg svg_file_path ;;
  match countries with
  | _ :: _ =>
    print (nl ++ py "成功提取了 " ++ str_of_N (N.of_nat (length countries))
           ++ py " 个国家/地区的信息") ;;;
    print (nl ++ py "前 10 个国家/地区信息:") ;;;
    print_countries_table countries (Some 10%Z) ;;;
    save_to_json countries (py "countries.json") ;;;
    save_to_csv countries (py "countries.csv") ;;;
    print (nl ++ py "国家/地区类型统计:") ;;;
    for_each (type_report countries) print ;;;
    print (nl ++ py "查找国家示例:") ;;;
    for_each search_terms (fun term => print (search_line countries term))
  | [] => print (py "未找到任何国家信息，请检查 SVG 文件格式")
  end.

End Program.

(** ** Definitions used to state the properties *)

(** The world after some lines have been printed. *)
Definition printed (w : world) (lines : list str) : world :=
  {| console := console w ++ lines; files := files w |}.

(** A parsed document with a named node and a lake. *)
Definition sample_tree : tree :=
  {| plain_paths := [[(a_id, py "CHN"); (a_name_zht, py "中国")]; [(a_type, py "Lake")]];
     svg_paths := [] |}.

(** The chain as the specification words it: the first that the node has of
    data-name_zht and data-name_zh, and the id when it has neither. *)
Definition fallback_chain (zht zh : option str) (id : str) : str :=
  match zht, zh with
  | Some v, _ => v
  | None, Some v => v
  | None, None => id
  end.

(** The same chain when an attribute that is present but empty counts as
    missing. *)
Definition fallback_chain_nonempty (zht zh : option str) (id : str) : str :=
  match zht, zh with
  | Some (c :: v), _ => c :: v
  | _, Some (c :: v) => c :: v
  | _, _ => id
  end.

(** The chain on the attributes of a parsed element. *)
Definition xml_chain (path : element) : str :=
  fallback_chain (Dict.get path a_name_zht) (Dict.get path a_name_zh)
    (Dict.get_or path a_id []).

(** The id the fallback strategy extracts from a tag, empty when the id
    pattern does not match. *)
Definition regex_id (path_tag : str) : str :=
  match Regex.search_attr a_id path_tag with Some v => v | None => [] end.

(** The chain on what the patterns find in a tag. *)
Definition regex_chain (path_tag : str) : str :=
  fallback_chain (Regex.search_attr a_name_zht path_tag)
    (Regex.search_attr a_name_zh path_tag) (regex_id path_tag).

(** The items of a report are in increasing order. *)
Definition items_sorted (l : list (str * N)) : Prop :=
  Sorted.Sorted (fun a b => item_leb a b = true) l.

(** A node with an empty data-name_zht, a data-name_zh and an id. *)
Definition empty_zht_node : element :=
  [(a_id, py "CHN"); (a_name_zht, []); (a_name_zh, py "中国")].

(** A tag whose first attribute has a name ending in id. *)
Definition grid_node : element :=
  [(py "data-grid", py "5"); (a_id, py "CHN"); (a_name_en, py "China")].

(** What [ET.parse] raises for a path that names no file. *)
Definition file_not_found (file_path : str) : exn :=
  {| kind := OSError;
     message := py "[Errno 2] No such file or directory: '" ++ file_path ++ py "'" |}.

(** The dict a reader builds from the members it meets, in order. *)
Definition set_all (acc d : record) : record :=
  fold_left (fun a kv => Dict.set a (fst kv) (snd kv)) d acc.

(** The fuel the reader needs for a sequence: one unit per record and one per
    member. *)
Fixpoint weight (ds : list record) : nat :=
  match ds with
  | [] => 0
  | d :: r => S (length d + weight r)
  end.

(** Text, records and sequences that the UTF-8 codec accepts. *)
Definition encodable_str (s : str) : bool := forallb encodable s.
Definition encodable_record (r : record) : bool :=
  forallb (fun kv => encodable_str (fst kv) && encodable_str (snd kv)) r.
Definition encodable_records (countries : list record) : bool :=
  forallb encodable_record countries.

(** A full record with a quote, a backslash and two control characters in
    one value, and a record with two fields. *)
Definition sample_records : list record :=
  [[(f_id, py "CHN"); (f_name_zh, py "中国"); (f_name_en, py "China");
    (f_formal_en, 34 :: 92 :: 9 :: 1 :: py "People's Republic"); (f_type, []);
    (f_sovereignty, py "China")];
   [(f_id, py "XYZ"); (f_name_zh, py "XYZ")]].

(** [field in r] *)
Definition carries (r : record) (field : str) : bool :=
  match Dict.get r field with Some _ => true | None => false end.

(** The values of a record under the six columns. *)
Definition csv_values (country : record) : list str :=
  map (fun field => Dict.get_or country field []) fields.

(** A line of six (or any number but one) fields. *)
Definition csv_line (row : list str) : str :=
  Json.join (py ",") (map Csv.format_field row) ++ Csv.crlf.

(** The header line. *)
Definition csv_header : str :=
  py "id,name_zh,name_en,formal_en,type,sovereignty" ++ [13; 10].

(** The attribute names the extractors look for. *)
Definition targets : list str :=
  [a_id; a_name_zht; a_name_zh; a_name_en; a_formal_en; a_type; a_sovereignt].

(** [s.endswith(p)] *)
Fixpoint ends_with (p s : str) : bool :=
  str_eqb p s || match s with [] => false | _ :: s' => ends_with p s' end.

(** No double quote and no [>]. *)
Definition no_quote_no_gt (s : str) : bool :=
  forallb (fun c => negb (c =? dq) && negb (c =? Regex.gt)) s.

(** An attribute name that does not confuse the patterns: it holds neither a
    double quote nor [>], and if it ends with one of the names looked for, it
    is that name. *)
Definition clean_name (k : str) : bool :=
  no_quote_no_gt k
  && forallb (fun t => str_eqb t k || negb (ends_with t k)) targets.

(** An attribute value that does not confuse the patterns: it holds neither a
    double quote nor [>], and does not end with a name looked for followed by
    an equals sign. *)
Definition clean_value (v : str) : bool :=
  no_quote_no_gt v
  && forallb (fun t => negb (ends_with (t ++ py "=") v)) targets.

(** The first local-name attribute of the node, if it has one, is not
    empty. *)
Definition local_name_ok (attrs : element) : bool :=
  match Dict.get attrs a_name_zht, Dict.get attrs a_name_zh with
  | Some v, _ => truthy v
  | None, Some v => truthy v
  | None, None => true
  end.

(** Clean attribute data: clean names, clean values, and a first local name
    that is not empty. *)
Definition clean_node (attrs : element) : bool :=
  forallb (fun kv => clean_name (fst kv) && clean_value (snd kv)) attrs
  && local_name_ok attrs.

(** A record with every field it lacks set to the empty text. *)
Definition normalize (r : record) : record :=
  map (fun field => (field, Dict.get_or r field [])) fields.

(** A name looked for starts with i or d and holds no double quote. *)
Definition target_ok (t : str) : bool :=
  match t with
  | c :: _ => (c =? 105) || (c =? 100)
  | [] => false
  end && forallb (fun c => negb (c =? dq)) t.

(** The attributes of a node are clean as far as the name looked for goes. *)
Definition clean_for (name : str) (attrs : element) : Prop :=
  Forall (fun kv =>
            ~ In dq (fst kv) /\ ~ In dq (snd kv)
            /\ (str_eqb name (fst kv) = true \/ ends_with name (fst kv) = false)
            /\ ends_with (name ++ py "=") (snd kv) = false) attrs.

(** The node has at least one attribute (its tag then matches the tag
    pattern, which asks for white space after the element name). *)
Definition has_attributes (attrs : element) : bool :=
  match attrs with [] => false | _ :: _ => true end.

(** A node with nothing but an id. *)
Definition id_only_nodes : list element := [[(a_id, py "XYZ")]].

(** Text that is not well-formed: an opening svg tag and the tag of a path
    with nothing but an id, neither of them closed. *)
Definition id_only_text : str :=
  py "<svg><path id=" ++ [dq] ++ py "XYZ" ++ [dq] ++ py ">".

(** Text that is not well-formed: an opening svg tag and the tag of the path
    [empty_zht_node], neither of them closed. *)
Definition empty_zht_text : str :=
  py "<svg><path id=" ++ [dq] ++ py "CHN" ++ [dq]
  ++ py " data-name_zht=" ++ [dq; dq]
  ++ py " data-name_zh=" ++ [dq] ++ py "中国" ++ [dq] ++ py ">".

(** The JSON text of a sequence with one record, which has the two members
    id and name_zh. *)
Definition two_member_json : str :=
  py "[" ++ [10] ++ py "  {" ++ [10]
  ++ py "    " ++ [dq] ++ py "id" ++ [dq] ++ py ": " ++ [dq] ++ py "XYZ" ++ [dq]
  ++ py "," ++ [10]
  ++ py "    " ++ [dq] ++ py "name_zh" ++ [dq] ++ py ": " ++ [dq] ++ py "XYZ" ++ [dq]
  ++ [10] ++ py "  }" ++ [10] ++ py "]".

(** An environment with two files: map.svg parses to the given path
    elements, any other file is rejected by the parser and reads as the given
    text. *)
Definition two_files_parse (nodes : list element) (file_path : str) : outcome tree :=
  if str_eqb file_path (py "map.svg")
  then Return {| plain_paths := nodes; svg_paths := [] |}
  else Raise {| kind := ParseError; message := py "no element found" |}.

(** Every file reads as the given text. *)
Definition two_files_read (text : str) (file_path : str) : outcome str := Return text.

(** Clean attribute data: a full node with an extra attribute, a node without
    attributes, a lake without a name, a node with only an id after another
    attribute, and a node named by data-name_zh. *)
Definition sample_nodes : list element :=
  [[(a_id, py "CHN"); (a_name_zht, py "中国"); (a_name_en, py "China");
    (a_type, py "Sovereign country"); (a_sovereignt, py "China"); (py "d", py "M0 0=z")];
   [];
   [(a_type, py "Lake")];
   [(py "class", py "land"); (a_id, py "XYZ")];
   [(a_name_zh, py "美国"); (a_formal_en, py "United States of America")]].

(** ** Definitions used to state the further properties *)

(** The label under which line 228 counts a record. *)
Definition type_label (country : record) : str :=
  Dict.get_or country f_type (py "未知").

(** The sum of the counts of a histogram. *)
Definition total_count (type_counts : Dict.dict N) : N :=
  fold_right (fun kv n => snd kv + n) 0 type_counts.

(** [term] occurs in [s]. *)
Definition substring (term s : str) : Prop :=
  exists pre post, s = pre ++ term ++ post.

(** The test of line 238. *)
Definition mentions (term : str) (c : record) : bool :=
  contains term (Dict.get_or c f_name_zh []) || contains term (Dict.get_or c f_name_en []).

Definition not_found_line (term : str) : str := py "  未找到 '" ++ term ++ py "'".

Definition found_line (term : str) (c : record) : str :=
  py "  找到 '" ++ term ++ py "': " ++ show_get c f_name_zh
  ++ py " (" ++ show_get c f_name_en ++ py ")".
(** The messages of [main] (lines 208-244). *)
Definition svg_file_path : str := py "世界地图.svg".
Definition start_notice : str := py "正在从 SVG 文件中提取国家信息...".
Definition nothing_notice : str := py "未找到任何国家信息，请检查 SVG 文件格式".
Definition success_line (countries : list record) : str :=
  nl ++ py "成功提取了 " ++ str_of_N (N.of_nat (length countries))
  ++ py " 个国家/地区的信息".
Definition preview_lines (countries : list record) : list str :=
  [success_line countries; nl ++ py "前 10 个国家/地区信息:"]
  ++ table_lines countries (Some 10%Z).
Definition report_lines (countries : list record) : list str :=
  [nl ++ py "国家/地区类型统计:"] ++ type_report countries
  ++ [nl ++ py "查找国家示例:"] ++ map (search_line countries) search_terms.

(** The world [main] leaves when extraction has given a sequence that is not
    empty: the preview, the two writers in turn, the reports. *)
Definition after_main
    (open_w : str -> option exn) (encode_error : str -> exn)
    (countries : list record) (w1 : world) : world :=
  let w_preview := printed w1 (preview_lines countries) in
  let w_json :=
    fst (save_to_json open_w encode_error countries (py "countries.json") w_preview) in
  let w_csv :=
    fst (save_to_csv open_w encode_error countries (py "countries.csv") w_json) in
  printed w_csv (report_lines countries).
(** The number of opening brackets in a text. *)
Definition opening_brackets (s : str) : nat := count_occ N.eq_dec s 60.

(** The shape of a tag that the tag pattern can match: the letters of the
    element name in either case after the opening bracket, one white-space
    code point, a body without [>], and [>]. *)
Definition tag_shape (m : str) : Prop :=
  exists pre c body,
    m = pre ++ c :: body ++ [Regex.gt]
    /\ map Regex.fold_case pre = py "<path"
    /\ Regex.is_space c = true
    /\ ~ In Regex.gt body.

(** ** Reading CSV text back

    A reader for the default dialect, code point by code point as
    [csv.reader] goes through its states: a field starts quoted or not; in a
    quoted field a doubled quote is one quote and a single quote ends the
    quoting; a comma outside quotes ends the field; a carriage return or a
    line feed outside quotes ends the record, and a line feed right after a
    carriage return belongs to the same line end. *)

Module CsvReader.

Inductive state :=
| Start_record | Start_field | In_field | In_quoted | Quote_in_quoted.

Definition is_newline (c : char) : bool := (c =? 13) || (c =? 10).

Definition eat_newline (c : char) (s : str) : str :=
  if c =? 13
  then match s with
       | c' :: r => if c' =? 10 then r else s
       | [] => s
       end
  else s.

(** One record: [acc] holds the current field backwards, [done] the fields
    read so far, last first. *)
Fixpoint read_record (st : state) (acc : str) (done : list str) (s : str)
  : option (list str * str) :=
  match s with
  | [] =>
    match st with
    | Start_record => None
    | _ => Some (rev (rev acc :: done), [])
    end
  | c :: r =>
    match st with
    | Start_record =>
      if is_newline c then Some ([], eat_newline c r)
      else if c =? 34 then read_record In_quoted [] done r
      else if c =? 44 then read_record Start_field [] ([] :: done) r
      else read_record In_field [c] done r
    | Start_field =>
      if is_newline c then Some (rev ([] :: done), eat_newline c r)
      else if c =? 34 then read_record In_quoted [] done r
      else if c =? 44 then read_record Start_field [] ([] :: done) r
      else read_record In_field [c] done r
    | In_field =>
      if is_newline c then Some (rev (rev acc :: done), eat_newline c r)
      else if c =? 44 then read_record Start_field [] (rev acc :: done) r
      else read_record In_field (c :: acc) done r
    | In_quoted =>
      if c =? 34 then read_record Quote_in_quoted acc done r
      else read_record In_quoted (c :: acc) done r
    | Quote_in_quoted =>
      if c =? 34 then read_record In_quoted (34 :: acc) done r
      else if c =? 44 then read_record Start_field [] (rev acc :: done) r
      else if is_newline c then Some (rev (rev acc :: done), eat_newline c r)
      else read_record In_field (c :: acc) done r
    end
  end.

(** All the records of a text. *)
Fixpoint read_records (fuel : nat) (s : str) : option (list (list str)) :=
  match s with
  | [] => Some []
  | _ :: _ =>
    match fuel with
    | O => None
    | S fuel' =>
      match read_record Start_record [] [] s with
      | Some (row, rest) =>
        match read_records fuel' rest with
        | Some rows => Some (row :: rows)
        | None => None
        end
      | None => None
      end
    end
  end.

Definition reader (text : str) : option (list (list str)) :=
  read_records (length text) text.

End CsvReader.

(** The four lines above the rows of the table. *)
Definition table_head (countries : list record) : list str :=
  [count_line countries; table_rule; table_header; table_rule].

(** One step of the loop of lines 227-229. *)
Definition count_step (type_counts : Dict.dict N) (country : record) : Dict.dict N :=
  Dict.set type_counts (type_label country)
    (Dict.get_or type_counts (type_label country) 0 + 1).

(** A parsed document with nothing but a lake. *)
Definition lake_tree : tree :=
  {| plain_paths := [[(a_type, py "Lake")]]; svg_paths := [] |}.

(** An environment in which encoding errors carry no message. *)
Definition no_encode_error (text : str) : exn :=
  {| kind := UnicodeError; message := [] |}.

(** An environment in which only the JSON file does not open. *)
Definition json_refused (path : str) : option exn :=
  if str_eqb path (py "countries.json")
  then Some {| kind := OSError; message := py "[Errno 13] Permission denied" |}
  else None.

(** A row of at least two fields. *)
Definition several_fields (row : list str) : Prop :=
  exists f g fs, row = f :: g :: fs.

(** * Properties *)

(** ** The scenarios of the specification *)

Example scenario_china_regex :
  regex_countries
    (py "<svg>" ++
     tag_text [(a_id, py "CHN"); (a_name_zht, py "中国"); (a_name_en, py "China");
               (a_type, py "Sovereign country"); (a_sovereignt, py "China")])
  = [[(f_id, py "CHN"); (f_name_zh, py "中国"); (f_name_en, py "China");
      (f_type, py "Sovereign country"); (f_sovereignty, py "China")]].
Proof. reflexivity. Qed.

Example scenario_china_xml :
  xml_countries
    [[(a_id, py "CHN"); (a_name_zht, py "中国"); (a_name_en, py "China");
      (a_type, py "Sovereign country"); (a_sovereignt, py "China")]]
  = [[(f_id, py "CHN"); (f_name_zh, py "中国"); (f_name_en, py "China");
      (f_formal_en, []); (f_type, py "Sovereign country"); (f_sovereignty, py "China")]].
Proof. reflexivity. Qed.

Example scenario_lake :
  xml_countries [[(a_type, py "Lake")]] = []
  /\ regex_countries (tag_text [(a_type, py "Lake")]) = [].
Proof. split; reflexivity. Qed.

Example json_example :
  Json.dumps [[(f_id, py "CHN"); (f_name_zh, py "中国")]; []]
  = py "[" ++ [10] ++ py "  {" ++ [10] ++ py "    " ++ [dq] ++ py "id" ++ [dq]
    ++ py ": " ++ [dq] ++ py "CHN" ++ [dq] ++ py "," ++ [10]
    ++ py "    " ++ [dq] ++ py "name_zh" ++ [dq] ++ py ": " ++ [dq] ++ py "中国" ++ [dq]
    ++ [10] ++ py "  }," ++ [10] ++ py "  {}" ++ [10] ++ py "]".
Proof. reflexivity. Qed.

Example json_loads_example :
  Json.loads (Json.dumps [[(f_id, py "CHN"); (f_name_zh, 9 :: 34 :: 1 :: py "中国")]; []])
  = Some [[(f_id, py "CHN"); (f_name_zh, 9 :: 34 :: 1 :: py "中国")]; []].
Proof. reflexivity. Qed.

(** ** Text and dict lemmas *)

Lemma str_eqb_eq (a b : str) : str_eqb a b = true <-> a = b.
Proof.
  revert b; induction a as [|x a IH]; intros [|y b]; simpl; split;
    try congruence; try reflexivity.
  - rewrite andb_true_iff, N.eqb_eq, IH. intros [-> ->]; reflexivity.
  - intros [= -> ->]. rewrite N.eqb_refl. simpl. apply IH. reflexivity.
Qed.

Lemma str_eqb_refl (a : str) : str_eqb a a = true.
Proof. apply str_eqb_eq; reflexivity. Qed.

Lemma str_eqb_neq (a b : str) : str_eqb a b = false <-> a <> b.
Proof.
  rewrite <- str_eqb_eq. destruct (str_eqb a b); split; congruence.
Qed.

Lemma str_eqb_sym (a b : str) : str_eqb a b = str_eqb b a.
Proof.
  destruct (str_eqb a b) eqn:E.
  - apply str_eqb_eq in E. subst. symmetry. apply str_eqb_refl.
  - symmetry. apply str_eqb_neq. apply str_eqb_neq in E. congruence.
Qed.

Lemma strip_prefix_app (p s : str) : strip_prefix p (p ++ s) = Some s.
Proof.
  induction p as [|x p IH]; simpl; [reflexivity|].
  rewrite N.eqb_refl. exact IH.
Qed.

Lemma strip_prefix_sound (p s r : str) : strip_prefix p s = Some r -> s = p ++ r.
Proof.
  revert s; induction p as [|x p IH]; intros s; simpl.
  - intros [= ->]; reflexivity.
  - destruct s as [|y s]; [discriminate|].
    destruct (x =? y) eqn:E; [|discriminate].
    apply N.eqb_eq in E. subst y. intros H. rewrite (IH _ H). reflexivity.
Qed.

Lemma until_sound (stop : char) (s b : str) :
  Regex.until stop s = Some b ->
  exists post, s = b ++ stop :: post /\ ~ In stop b.
Proof.
  revert b; induction s as [|c s IH]; intros b; simpl; [discriminate|].
  destruct (c =? stop) eqn:E.
  - intros [= <-]. apply N.eqb_eq in E. subst c. exists s. split; [reflexivity|].
    intros [].
  - destruct (Regex.until stop s) as [b'|]; [|discriminate].
    intros [= <-]. destruct (IH b' eq_refl) as (post & -> & Hn).
    exists post. split; [reflexivity|].
    intros [H|H]; [|exact (Hn H)].
    apply N.eqb_neq in E. exact (E H).
Qed.

Lemma until_complete (stop : char) (b post : str) :
  ~ In stop b -> Regex.until stop (b ++ stop :: post) = Some b.
Proof.
  induction b as [|c b IH]; simpl; intros Hn.
  - rewrite N.eqb_refl. reflexivity.
  - destruct (c =? stop) eqn:E.
    + apply N.eqb_eq in E. exfalso. apply Hn. left. exact E.
    + rewrite IH; [reflexivity|]. intros H. apply Hn. right. exact H.
Qed.

Lemma match_attr_sound (name s v : str) :
  Regex.match_attr name s = Some v ->
  exists post, s = name ++ py "=" ++ [dq] ++ v ++ [dq] ++ post /\ ~ In dq v.
Proof.
  unfold Regex.match_attr.
  destruct (strip_prefix _ s) as [rest|] eqn:E; [|discriminate].
  intros H. apply strip_prefix_sound in E.
  destruct (until_sound _ _ _ H) as (post & -> & Hn).
  exists post. split; [|exact Hn].
  rewrite E. rewrite <- !app_assoc. reflexivity.
Qed.

(** What [re.search] returns is the first place where the attribute pattern
    matches. *)
Lemma search_attr_sound (name s v : str) :
  Regex.search_attr name s = Some v ->
  exists pre post,
    s = pre ++ name ++ py "=" ++ [dq] ++ v ++ [dq] ++ post
    /\ ~ In dq v
    /\ forall k, (k < length pre)%nat -> Regex.match_attr name (skipn k s) = None.
Proof.
  induction s as [|c s IH]; simpl.
  - destruct (Regex.match_attr name []) as [v'|] eqn:E; [|discriminate].
    intros [= ->]. destruct (match_attr_sound _ _ _ E) as (post & Hs & Hn).
    exists [], post. repeat split; [exact Hs | exact Hn |].
    simpl. intros k Hk. lia.
  - destruct (Regex.match_attr name (c :: s)) as [v'|] eqn:E.
    + intros [= ->]. destruct (match_attr_sound _ _ _ E) as (post & Hs & Hn).
      exists [], post. repeat split; [exact Hs | exact Hn |].
      simpl. intros k Hk. lia.
    + intros H. destruct (IH H) as (pre & post & -> & Hn & Hk).
      exists (c :: pre), post. repeat split; [exact Hn|].
      intros [|k] Hlt; simpl; [exact E|].
      apply Hk. simpl in Hlt. lia.
Qed.

Lemma search_attr_skip (name pre s : str) :
  (forall k, (k < length pre)%nat -> Regex.match_attr name (skipn k (pre ++ s)) = None) ->
  Regex.search_attr name (pre ++ s) = Regex.search_attr name s.
Proof.
  induction pre as [|c pre IH]; intros H; [reflexivity|].
  pose proof (H 0%nat ltac:(simpl; lia)) as H0.
  cbn [app skipn] in H0. cbn [app Regex.search_attr]. rewrite H0.
  apply IH. intros k Hk. apply (H (S k)). simpl. lia.
Qed.

Lemma search_attr_here (name v post : str) :
  ~ In dq v ->
  Regex.search_attr name (name ++ py "=" ++ [dq] ++ v ++ [dq] ++ post) = Some v.
Proof.
  intros Hn.
  assert (E : Regex.match_attr name (name ++ py "=" ++ [dq] ++ v ++ [dq] ++ post) = Some v).
  { unfold Regex.match_attr.
    replace (name ++ py "=" ++ [dq] ++ v ++ [dq] ++ post)
      with ((name ++ py "=" ++ [dq]) ++ v ++ dq :: post)
      by (rewrite <- !app_assoc; reflexivity).
    rewrite strip_prefix_app. apply until_complete. exact Hn. }
  destruct (name ++ py "=" ++ [dq] ++ v ++ [dq] ++ post) eqn:Es;
    simpl; rewrite E; reflexivity.
Qed.

(** ** Running the effects *)

Lemma for_each_print (lines : list str) (w : world) :
  for_each lines print w
  = ({| console := console w ++ lines; files := files w |}, Return tt).
Proof.
  revert w; induction lines as [|l lines IH]; intros [c f]; simpl.
  - unfold ret. rewrite app_nil_r. reflexivity.
  - unfold bind, print. simpl. rewrite IH. simpl.
    rewrite <- app_assoc. reflexivity.
Qed.

Lemma printed_nil (w : world) : printed w [] = w.
Proof. destruct w as [c f]. unfold printed. simpl. rewrite app_nil_r. reflexivity. Qed.

Section Extraction.

Variable ET_parse : str -> outcome tree.
Variable read_text : str -> outcome str.

Lemma regex_extraction_run (file_path : str) (w : world) :
  extract_countries_with_regex read_text file_path w =
  match read_text file_path with
  | Return content => (w, Return (regex_countries content))
  | Raise e => (printed w [read_failure_notice e], Return [])
  end.
Proof.
  unfold extract_countries_with_regex, try_except, bind, lift, ret, print,
    printed, read_failure_notice.
  destruct (read_text file_path) as [content|e]; reflexivity.
Qed.

Lemma svg_extraction_run (file_path : str) (w : world) :
  extract_countries_from_svg ET_parse read_text file_path w =
  match ET_parse file_path with
  | Return root => (w, Return (xml_countries (find_paths root)))
  | Raise e =>
    match kind e with
    | ParseError =>
      match read_text file_path with
      | Return content =>
        (printed w [fallback_notice], Return (regex_countries content))
      | Raise e' =>
        (printed w [fallback_notice; read_failure_notice e'], Return [])
      end
    | _ => (w, Raise e)
    end
  end.
Proof.
  unfold extract_countries_from_svg, try_except, bind, lift, ret.
  destruct (ET_parse file_path) as [root|e]; [reflexivity|].
  destruct (kind e); [ | reflexivity | reflexivity | reflexivity].
  unfold print at 1. rewrite regex_extraction_run.
  unfold printed, fallback_notice.
  destruct (read_text file_path) as [content|e']; [reflexivity|].
  cbn [console files]. rewrite <- app_assoc. reflexivity.
Qed.

End Extraction.

(** ** Which records are kept *)

Lemma truthy_iff (s : str) : truthy s = true <-> s <> [].
Proof. destruct s; simpl; split; congruence. Qed.

Lemma truthy_get_iff (d : record) (k : str) :
  truthy_get d k = true <-> Dict.get_or d k [] <> [].
Proof.
  unfold truthy_get, Dict.get_or.
  destruct (Dict.get d k) as [v|]; [apply truthy_iff|].
  split; congruence.
Qed.

Lemma has_name_iff (r : record) :
  has_name r = true <->
  Dict.get_or r f_name_zh [] <> [] \/ Dict.get_or r f_name_en [] <> [].
Proof.
  unfold has_name. rewrite orb_true_iff, !truthy_get_iff. reflexivity.
Qed.

(** C3.  Whatever extraction returns, by either strategy, is the sequence of
    the records built (one per path element, or one per matched tag, in
    document order) cut down to those whose name_zh or name_en is not empty
    once the fallback to id has been applied: a built record is in the
    result exactly when it has such a name.  Nothing is printed for a record
    that is dropped: the console gets at most the fallback notice and the
    read-failure notice, and no file is touched. *)
Theorem kept_iff_named
    (ET_parse : str -> outcome tree) (read_text : str -> outcome str)
    (file_path : str) (w w' : world) (countries : list record) :
  extract_countries_from_svg ET_parse read_text file_path w = (w', Return countries) ->
  exists built : list record,
    ((exists root,
        ET_parse file_path = Return root
        /\ built = map xml_country_info (find_paths root) /\ w' = w)
     \/ (exists content,
           read_text file_path = Return content
           /\ built = map regex_country_info (Regex.findall_path_tags content)
           /\ w' = printed w [fallback_notice])
     \/ (exists e, read_text file_path = Raise e /\ built = []
                   /\ w' = printed w [fallback_notice; read_failure_notice e]))
    /\ countries = filter has_name built
    /\ (forall r, In r countries <->
                  In r built /\ (Dict.get_or r f_name_zh [] <> []
                                 \/ Dict.get_or r f_name_en [] <> []))
    /\ Forall (fun r => Dict.get_or r f_name_zh [] <> []
                        \/ Dict.get_or r f_name_en [] <> []) countries.
Proof.
  rewrite svg_extraction_run. intros H.
  assert (K : forall built, countries = filter has_name built ->
    countries = filter has_name built
    /\ (forall r, In r countries <->
                  In r built /\ (Dict.get_or r f_name_zh [] <> []
                                 \/ Dict.get_or r f_name_en [] <> []))
    /\ Forall (fun r => Dict.get_or r f_name_zh [] <> []
                        \/ Dict.get_or r f_name_en [] <> []) countries).
  { intros built E. split; [exact E|]. split.
    - intros r. rewrite E, filter_In, has_name_iff. reflexivity.
    - apply Forall_forall. intros r Hr. rewrite E in Hr.
      apply filter_In in Hr. apply has_name_iff. apply Hr. }
  destruct (ET_parse file_path) as [root|e].
  - injection H as <- <-.
    exists (map xml_country_info (find_paths root)). split.
    + left. exists root. repeat split.
    + apply K. reflexivity.
  - destruct (kind e); try discriminate.
    destruct (read_text file_path) as [content|e'].
    + injection H as <- <-.
      exists (map regex_country_info (Regex.findall_path_tags content)). split.
      * right; left. exists content. repeat split.
      * apply K. reflexivity.
    + injection H as <- <-. exists []. split.
      * right; right. exists e'. repeat split.
      * apply K. reflexivity.
Qed.

Lemma kept_iff_named_witness :
  exists built : list record,
    ((exists root,
        Return sample_tree = Return root
        /\ built = map xml_country_info (find_paths root) /\ empty_world = empty_world)
     \/ (exists content,
           Return (A := str) [] = Return content
           /\ built = map regex_country_info (Regex.findall_path_tags content)
           /\ empty_world = printed empty_world [fallback_notice])
     \/ (exists e, Return (A := str) [] = Raise e /\ built = []
                   /\ empty_world = printed empty_world [fallback_notice; read_failure_notice e]))
    /\ [[(f_id, py "CHN"); (f_name_zh, py "中国"); (f_name_en, []); (f_formal_en, []);
         (f_type, []); (f_sovereignty, [])]] = filter has_name built
    /\ (forall r,
          In r [[(f_id, py "CHN"); (f_name_zh, py "中国"); (f_name_en, []);
                 (f_formal_en, []); (f_type, []); (f_sovereignty, [])]] <->
          In r built /\ (Dict.get_or r f_name_zh [] <> []
                         \/ Dict.get_or r f_name_en [] <> []))
    /\ Forall (fun r => Dict.get_or r f_name_zh [] <> []
                        \/ Dict.get_or r f_name_en [] <> [])
         [[(f_id, py "CHN"); (f_name_zh, py "中国"); (f_name_en, []); (f_formal_en, []);
           (f_type, []); (f_sovereignty, [])]].
Proof.
  apply (kept_iff_named (fun _ => Return sample_tree) (fun _ => Return [])
           (py "世界地图.svg") empty_world empty_world).
  reflexivity.
Defined.

(** ** The local name *)

Lemma xml_name_zh (path : element) :
  Dict.get_or (xml_country_info path) f_name_zh [] =
  (if truthy (xml_chain path) then xml_chain path else Dict.get_or path a_id []).
Proof.
  unfold xml_country_info, xml_chain, fallback_chain, Dict.get_or.
  destruct (Dict.get path a_id) as [[|c i]|];
    destruct (Dict.get path a_name_zht) as [[|c1 z1]|];
    destruct (Dict.get path a_name_zh) as [[|c2 z2]|];
    destruct (Dict.get path a_name_en) as [en|];
    destruct (Dict.get path a_formal_en) as [fe|];
    destruct (Dict.get path a_type) as [ty|];
    destruct (Dict.get path a_sovereignt) as [so|]; reflexivity.
Qed.

Lemma regex_name_zh (path_tag : str) :
  Dict.get_or (regex_country_info path_tag) f_name_zh [] = regex_chain path_tag.
Proof.
  unfold regex_country_info, regex_chain, regex_id, fallback_chain, Dict.get_or,
    set_if_match.
  destruct (Regex.search_attr a_id path_tag) as [[|c i]|];
    destruct (Regex.search_attr a_name_zht path_tag) as [z1|];
    destruct (Regex.search_attr a_name_zh path_tag) as [z2|];
    destruct (Regex.search_attr a_name_en path_tag) as [en|];
    destruct (Regex.search_attr a_formal_en path_tag) as [fe|];
    destruct (Regex.search_attr a_type path_tag) as [ty|];
    destruct (Regex.search_attr a_sovereignt path_tag) as [so|]; reflexivity.
Qed.

Lemma regex_id_field (path_tag : str) :
  Dict.get (regex_country_info path_tag) f_id = Regex.search_attr a_id path_tag.
Proof.
  unfold regex_country_info, set_if_match.
  destruct (Regex.search_attr a_id path_tag) as [[|c i]|];
    destruct (Regex.search_attr a_name_zht path_tag) as [z1|];
    destruct (Regex.search_attr a_name_zh path_tag) as [z2|];
    destruct (Regex.search_attr a_name_en path_tag) as [en|];
    destruct (Regex.search_attr a_formal_en path_tag) as [fe|];
    destruct (Regex.search_attr a_type path_tag) as [ty|];
    destruct (Regex.search_attr a_sovereignt path_tag) as [so|]; reflexivity.
Qed.

(** C4.  The chain data-name_zht, then data-name_zh, then the id is not what
    the strategies compute for the path element with the id CHN, an empty
    data-name_zht and the data-name_zh 中国.  The XML strategy never looks at
    data-name_zh once data-name_zht is present: it takes the empty
    data-name_zht, replaces it by the id and keeps the record under the name
    CHN, which is the value of the chain under neither reading of it (中国
    when an empty attribute counts as missing, the empty text when it does
    not).  The fallback strategy, on the same tag, takes the empty
    data-name_zht and stops there: the id is not used, the record has an
    empty name_zh and is dropped. *)
Theorem empty_zht_skips_zh :
  empty_zht_text = py "<svg>" ++ tag_text empty_zht_node
  /\ Dict.get empty_zht_node a_id = Some (py "CHN")
  /\ Dict.get empty_zht_node a_name_zht = Some []
  /\ Dict.get empty_zht_node a_name_zh = Some (py "中国")
  /\ fallback_chain_nonempty (Dict.get empty_zht_node a_name_zht)
       (Dict.get empty_zht_node a_name_zh) (Dict.get_or empty_zht_node a_id [])
     = py "中国"
  /\ xml_chain empty_zht_node = []
  /\ extract_countries_from_svg (two_files_parse [empty_zht_node])
       (two_files_read empty_zht_text) (py "map.svg") empty_world
     = (empty_world,
        Return [[(f_id, py "CHN"); (f_name_zh, py "CHN"); (f_name_en, []);
                 (f_formal_en, []); (f_type, []); (f_sovereignty, [])]])
  /\ regex_country_info (tag_text empty_zht_node)
     = [(f_id, py "CHN"); (f_name_zh, [])]
  /\ extract_countries_from_svg (two_files_parse [empty_zht_node])
       (two_files_read empty_zht_text) (py "broken.svg") empty_world
     = (printed empty_world [fallback_notice], Return []).
Proof. repeat split; vm_compute; reflexivity. Qed.

(** ** The id of the fallback strategy *)

(** C9.  The id field of the fallback strategy is group 1 of the first place
    in the tag where the letters id, an equals sign and a quoted value occur,
    whatever precedes them.  For the tag of a node with the attributes
    data-grid, id and data-name_en, in that order, that place is the end of
    data-grid: the record's id is the value of data-grid, not the value of
    the attribute named id (which the XML strategy reports). *)
Theorem regex_id_from_longer_name :
  (forall path_tag,
     Dict.get (regex_country_info path_tag) f_id = Regex.search_attr a_id path_tag)
  /\ (forall path_tag v,
        Regex.search_attr a_id path_tag = Some v ->
        exists pre post,
          path_tag = pre ++ a_id ++ py "=" ++ [dq] ++ v ++ [dq] ++ post
          /\ ~ In dq v
          /\ forall k, (k < length pre)%nat ->
                       Regex.match_attr a_id (skipn k path_tag) = None)
  /\ Regex.findall_path_tags (py "<svg>" ++ tag_text grid_node) = [tag_text grid_node]
  /\ Dict.get grid_node a_id = Some (py "CHN")
  /\ Dict.get grid_node (py "data-grid") = Some (py "5")
  /\ Dict.get (regex_country_info (tag_text grid_node)) f_id = Some (py "5")
  /\ Dict.get (xml_country_info grid_node) f_id = Some (py "CHN")
  /\ regex_countries (py "<svg>" ++ tag_text grid_node)
     = [[(f_id, py "5"); (f_name_zh, py "5"); (f_name_en, py "China")]].
Proof.
  split; [exact regex_id_field|].
  split; [intros path_tag v; apply search_attr_sound|].
  repeat split; vm_compute; reflexivity.
Qed.

Lemma regex_id_from_longer_name_witness :
  exists pre post,
    tag_text grid_node = pre ++ a_id ++ py "=" ++ [dq] ++ py "5" ++ [dq] ++ post
    /\ ~ In dq (py "5")
    /\ forall k, (k < length pre)%nat ->
                 Regex.match_attr a_id (skipn k (tag_text grid_node)) = None.
Proof.
  destruct regex_id_from_longer_name as (_ & H & _).
  apply (H (tag_text grid_node) (py "5")).
  vm_compute. reflexivity.
Defined.

(** ** The console table *)

Lemma table_rows_length (start : nat) (countries : list record) :
  length (table_rows start countries) = length countries.
Proof.
  revert start; induction countries as [|c r IH]; intros start; simpl;
    [reflexivity|]. rewrite IH. reflexivity.
Qed.

(** C10.  With a limit of 0 the table is printed as with no limit: after the
    count line and the three header lines comes one row per record, numbered
    from 1, and nothing follows the rows. *)
Theorem limit_zero_prints_all (countries : list record) (w : world) :
  print_countries_table countries (Some 0%Z) = print_countries_table countries None
  /\ table_lines countries (Some 0%Z)
     = [count_line countries; table_rule; table_header; table_rule]
       ++ table_rows 1 countries
  /\ length (table_rows 1 countries) = length countries
  /\ print_countries_table countries (Some 0%Z) w
     = (printed w ([count_line countries; table_rule; table_header; table_rule]
                   ++ table_rows 1 countries), Return tt).
Proof.
  assert (E : table_lines countries (Some 0%Z)
              = [count_line countries; table_rule; table_header; table_rule]
                ++ table_rows 1 countries).
  { unfold table_lines, count_line. cbn [limit_given Z.eqb negb andb].
    rewrite app_nil_r. reflexivity. }
  split; [|split; [exact E|split; [apply table_rows_length|]]].
  - unfold print_countries_table. rewrite E.
    unfold table_lines, count_line. rewrite app_nil_r. reflexivity.
  - unfold print_countries_table. rewrite E. apply for_each_print.
Qed.

(** With a positive limit below the number of records, by contrast, the rows
    stop at the limit and the omitted-count line follows. *)
Example limit_one_of_two :
  table_lines [[(f_id, py "A")]; [(f_id, py "B")]] (Some 1%Z)
  = [count_line [[(f_id, py "A")]; [(f_id, py "B")]]; table_rule; table_header;
     table_rule; table_row 1 [(f_id, py "A")];
     py "... 还有 1 个国家未显示"].
Proof. vm_compute. reflexivity. Qed.

(** ** A file that is not there *)

(** C2 fails on the code.  When the input file does not exist [ET.parse]
    raises an OSError, which the handler for ParseError does not accept: the
    exception leaves extract_countries_from_svg without the fallback being
    tried, leaves main after its first message, and ends the process.  (The
    fallback itself turns the same error into a message and an empty
    result.) *)
Theorem missing_file_escapes
    (read_text : str -> outcome str) (open_w : str -> option exn)
    (encode_error : str -> exn) (file_path : str) (w : world) :
  extract_countries_from_svg (fun p => Raise (file_not_found p)) read_text file_path w
  = (w, Raise (file_not_found file_path))
  /\ main (fun p => Raise (file_not_found p)) read_text open_w encode_error empty_world
     = ({| console := [py "正在从 SVG 文件中提取国家信息..."]; files := [] |},
        Raise (file_not_found (py "世界地图.svg")))
  /\ extract_countries_with_regex (fun p => Raise (file_not_found p)) file_path w
     = (printed w [read_failure_notice (file_not_found file_path)], Return []).
Proof.
  split; [|split].
  - rewrite svg_extraction_run. reflexivity.
  - unfold main, bind. unfold print at 1. cbn [console files empty_world app].
    rewrite svg_extraction_run. reflexivity.
  - rewrite regex_extraction_run. reflexivity.
Qed.

(** ** The type count *)

(** The report itself is in increasing order of label, whatever the
    records. *)
Lemma str_ltb_trichotomy (a b : str) :
  str_ltb a b = false -> str_eqb a b = false -> str_ltb b a = true.
Proof.
  revert b; induction a as [|x a IH]; intros [|y b]; cbn [str_ltb str_eqb];
    try congruence; try reflexivity.
  intros H1 H2. apply orb_false_iff in H1. destruct H1 as [Hlt H1].
  apply N.ltb_ge in Hlt. destruct (x =? y) eqn:E.
  - apply N.eqb_eq in E. subst y. rewrite N.eqb_refl, N.ltb_irrefl.
    cbn [andb orb] in *. apply IH; assumption.
  - apply N.eqb_neq in E. assert (Hyx : (y <? x) = true) by (apply N.ltb_lt; lia).
    rewrite Hyx. reflexivity.
Qed.

Lemma item_leb_total (a b : str * N) : item_leb a b = false -> item_leb b a = true.
Proof.
  unfold item_leb. intros H. apply orb_false_iff in H. destruct H as [Hlt H].
  destruct (str_eqb (fst a) (fst b)) eqn:E.
  - cbn [andb] in H. apply N.leb_gt in H. rewrite str_eqb_sym, E.
    assert (Hle : (snd b <=? snd a) = true) by (apply N.leb_le; lia).
    rewrite Hle. apply orb_true_r.
  - rewrite (str_ltb_trichotomy _ _ Hlt E). reflexivity.
Qed.

Lemma insert_sorted_sorted (x : str * N) (l : list (str * N)) :
  items_sorted l -> items_sorted (insert_sorted x l).
Proof.
  unfold items_sorted. induction l as [|y l IH]; intros H; cbn [insert_sorted].
  - constructor; constructor.
  - destruct (item_leb x y) eqn:E.
    + constructor; [exact H|]. constructor. exact E.
    + inversion H as [|? ? Hs Hh]; subst. constructor; [apply IH; exact Hs|].
      destruct l as [|z l]; cbn [insert_sorted].
      * constructor. apply item_leb_total. exact E.
      * destruct (item_leb x z); constructor.
        -- apply item_leb_total. exact E.
        -- inversion Hh; assumption.
Qed.

Lemma sorted_items_sorted (type_counts : Dict.dict N) :
  items_sorted (sorted_items type_counts).
Proof.
  unfold sorted_items. induction type_counts as [|x l IH]; cbn [fold_right].
  - constructor.
  - apply insert_sorted_sorted. exact IH.
Qed.

(** C6 fails on the code for records of the XML strategy.  A path element
    without data-type gets the type [''] there (line 42), so the default of
    line 228 never applies to such a record: its label is its data-type, or
    the empty text.  The record of a node with nothing but an id is counted
    under the empty label; the same node read by the fallback strategy has no
    type key and is counted under the label for unknown. *)
Theorem untyped_xml_record_not_unknown :
  (forall path : element,
     Dict.get_or (xml_country_info path) f_type (py "未知") = Dict.get_or path a_type [])
  /\ xml_countries [[(a_id, py "XYZ")]]
     = [[(f_id, py "XYZ"); (f_name_zh, py "XYZ"); (f_name_en, []); (f_formal_en, []);
         (f_type, []); (f_sovereignty, [])]]
  /\ count_types (xml_countries [[(a_id, py "XYZ")]]) = [([], 1)]
  /\ type_report (xml_countries [[(a_id, py "XYZ")]]) = [py "  : 1个"]
  /\ regex_countries (tag_text [(a_id, py "XYZ")])
     = [[(f_id, py "XYZ"); (f_name_zh, py "XYZ")]]
  /\ type_report (regex_countries (tag_text [(a_id, py "XYZ")])) = [py "  未知: 1个"].
Proof.
  split.
  - intros path. unfold xml_country_info, Dict.get_or.
    destruct (Dict.get path a_id) as [[|? ?]|];
      destruct (Dict.get path a_name_zht) as [[|? ?]|];
      destruct (Dict.get path a_name_zh) as [[|? ?]|];
      destruct (Dict.get path a_name_en) as [?|];
      destruct (Dict.get path a_formal_en) as [?|];
      destruct (Dict.get path a_type) as [?|];
      destruct (Dict.get path a_sovereignt) as [?|]; reflexivity.
  - repeat split; vm_compute; reflexivity.
Qed.

(** ** Reading back what [json.dump] wrote *)

Ltac eval_py :=
  repeat match goal with
         | |- context [py ?s] =>
           let v := eval vm_compute in (py s) in change (py s) with v
         end.

Lemma below_32 (c : N) : (c <? 32) = true -> In c (map N.of_nat (seq 0 32)).
Proof.
  intros H. apply N.ltb_lt in H.
  rewrite <- (N2Nat.id c). apply in_map. apply in_seq. lia.
Qed.

Lemma hex_escape_read (c : N) :
  (c <? 32) = true ->
  Json.hex4 48 48 (Json.hex_digit (c / 16)) (Json.hex_digit (c mod 16)) = Some c
  /\ Json.is_high c = false.
Proof.
  intros H. apply below_32 in H.
  assert (K : forallb
                (fun c => match Json.hex4 48 48 (Json.hex_digit (c / 16))
                                  (Json.hex_digit (c mod 16)) with
                          | Some v => (v =? c) && negb (Json.is_high c)
                          | None => false
                          end) (map N.of_nat (seq 0 32)) = true)
    by (vm_compute; reflexivity).
  rewrite forallb_forall in K. specialize (K c H).
  destruct (Json.hex4 48 48 (Json.hex_digit (c / 16)) (Json.hex_digit (c mod 16)))
    as [v|]; [|discriminate].
  apply andb_true_iff in K. destruct K as [K1 K2].
  apply N.eqb_eq in K1. subst v. apply negb_true_iff in K2. split; [reflexivity|exact K2].
Qed.

Lemma scan_after_escape (v : N) (r2 : str) :
  Json.is_high v = false ->
  match r2 with
  | b :: u :: g1 :: g2 :: g3 :: g4 :: r3 =>
    match (if (b =? 92) && (u =? 117) then Json.hex4 g1 g2 g3 g4 else None) with
    | Some l =>
      if Json.is_high v && Json.is_low l
      then Json.push (65536 + (v - 55296) * 1024 + (l - 56320)) (Json.scan_string r3)
      else Json.push v (Json.scan_string r2)
    | None => Json.push v (Json.scan_string r2)
    end
  | _ => Json.push v (Json.scan_string r2)
  end = Json.push v (Json.scan_string r2).
Proof.
  intros H.
  destruct r2 as [|b [|u [|g1 [|g2 [|g3 [|g4 r3]]]]]]; try reflexivity.
  destruct (if (b =? 92) && (u =? 117) then Json.hex4 g1 g2 g3 g4 else None);
    [|reflexivity].
  rewrite H. reflexivity.
Qed.

Lemma scan_escaped_char (c : char) (r : str) :
  Json.scan_string (Json.escape_char c ++ r) = Json.push c (Json.scan_string r).
Proof.
  unfold Json.escape_char.
  destruct (c =? 34) eqn:E1; [apply N.eqb_eq in E1; subst; reflexivity|].
  destruct (c =? 92) eqn:E2; [apply N.eqb_eq in E2; subst; reflexivity|].
  destruct (c =? 10) eqn:E3; [apply N.eqb_eq in E3; subst; reflexivity|].
  destruct (c =? 13) eqn:E4; [apply N.eqb_eq in E4; subst; reflexivity|].
  destruct (c =? 9) eqn:E5; [apply N.eqb_eq in E5; subst; reflexivity|].
  destruct (c =? 8) eqn:E6; [apply N.eqb_eq in E6; subst; reflexivity|].
  destruct (c =? 12) eqn:E7; [apply N.eqb_eq in E7; subst; reflexivity|].
  destruct (c <? 32) eqn:E8.
  - destruct (hex_escape_read c E8) as [Hh Hs].
    cbn [app Json.scan_string]. 
    change (92 =? 34) with false. change (92 =? 92) with true.
    change (117 =? 117) with true. cbv iota. rewrite Hh.
    apply scan_after_escape. exact Hs.
  - cbn [app Json.scan_string]. rewrite E1, E2, E8. reflexivity.
Qed.

Lemma scan_escaped (s rest : str) :
  Json.scan_string (flat_map Json.escape_char s ++ dq :: rest) = Some (s, rest).
Proof.
  induction s as [|c s IH].
  - reflexivity.
  - cbn [flat_map]. rewrite <- app_assoc, scan_escaped_char, IH. reflexivity.
Qed.

Lemma read_dumped_str (s rest : str) :
  Json.read_string (Json.dumps_str s ++ rest) = Some (s, rest).
Proof.
  unfold Json.dumps_str, Json.read_string. cbn [app]. 
  change dq with 34 at 1. cbv iota. rewrite <- app_assoc. apply scan_escaped.
Qed.

Lemma skip_ws_spaces (k : nat) (s : str) :
  Json.skip_ws (repeat 32 k ++ s) = Json.skip_ws s.
Proof. induction k as [|k IH]; [reflexivity|exact IH]. Qed.

Lemma skip_ws_indent (level : nat) (s : str) :
  Json.skip_ws (Json.newline_indent level ++ s) = Json.skip_ws s.
Proof. unfold Json.newline_indent. cbn [app Json.skip_ws Json.is_ws N.eqb orb Pos.eqb].
  apply skip_ws_spaces. Qed.

Lemma skip_ws_str (s r : str) :
  Json.skip_ws (Json.dumps_str s ++ r) = Json.dumps_str s ++ r.
Proof. reflexivity. Qed.

Lemma join_cons2 (sep p q : str) (r : list str) :
  Json.join sep (p :: q :: r) = p ++ sep ++ Json.join sep (q :: r).
Proof. reflexivity. Qed.

Lemma read_members_dumped (n m : nat) (d : record) :
  d <> [] ->
  forall (fuel : nat) (acc : record) (rest : str),
    (length d <= fuel)%nat ->
    Json.read_members fuel acc
      (Json.join (py "," ++ Json.newline_indent n) (map Json.dumps_member d)
       ++ Json.newline_indent m ++ py "}" ++ rest)
    = Some (set_all acc d, rest).
Proof.
  induction d as [|[k v] d IH]; [congruence|]. intros _ fuel acc rest Hf.
  destruct fuel as [|fuel]; [simpl in Hf; lia|].
  assert (Hkv : forall tail,
    Json.read_members (S fuel) acc
      (Json.dumps_member (k, v) ++ tail)
    = match Json.skip_ws tail with
      | 44 :: s4 => Json.read_members fuel (Dict.set acc k v) (Json.skip_ws s4)
      | 125 :: s4 => Some (Dict.set acc k v, s4)
      | _ => None
      end).
  { intros tail. unfold Json.dumps_member. cbn [fst snd Json.read_members].
    rewrite <- !app_assoc. rewrite read_dumped_str.
    eval_py. cbn [app]. 
    change (Json.skip_ws (58 :: 32 :: Json.dumps_str v ++ tail))
      with (58 :: 32 :: Json.dumps_str v ++ tail).
    cbv iota.
    change (Json.skip_ws (32 :: Json.dumps_str v ++ tail))
      with (Json.dumps_str v ++ tail).
    rewrite read_dumped_str. reflexivity. }
  destruct d as [|kv2 d].
  - cbn [map Json.join]. rewrite Hkv. rewrite skip_ws_indent.
    eval_py. reflexivity.
  - cbn [map]. rewrite join_cons2. rewrite <- !app_assoc. rewrite Hkv.
    eval_py. cbn [app].
    change (Json.skip_ws (44 :: ?x)) with (44 :: x). cbv iota.
    rewrite skip_ws_indent.
    change (map Json.dumps_member (kv2 :: d)) with (map Json.dumps_member (kv2 :: d)).
    assert (Hs : forall tail,
      Json.skip_ws (Json.join (44 :: Json.newline_indent n)
                      (Json.dumps_member kv2 :: map Json.dumps_member d) ++ tail)
      = Json.join (44 :: Json.newline_indent n)
                      (Json.dumps_member kv2 :: map Json.dumps_member d) ++ tail).
    { intros tail. destruct d; reflexivity. }
    rewrite Hs.
    specialize (IH ltac:(discriminate) fuel (Dict.set acc k v) rest
                  ltac:(simpl in Hf |- *; lia)).
    revert IH. eval_py. cbn [app map]. intros IH. exact IH.
Qed.

Lemma set_fresh {V : Type} (acc : Dict.dict V) (k : str) (v : V) :
  ~ In k (Dict.keys acc) -> Dict.set acc k v = acc ++ [(k, v)].
Proof.
  induction acc as [|[k' v'] acc IH]; intros H; [reflexivity|].
  cbn [Dict.set app]. destruct (str_eqb k' k) eqn:E.
  - apply str_eqb_eq in E. exfalso. apply H. left. exact E.
  - rewrite IH; [reflexivity|]. intros Hin. apply H. right. exact Hin.
Qed.

Lemma set_all_wf (d acc : record) :
  NoDup (Dict.keys (acc ++ d)) -> set_all acc d = acc ++ d.
Proof.
  revert acc; induction d as [|[k v] d IH]; intros acc H.
  - rewrite app_nil_r. reflexivity.
  - unfold set_all. cbn [fold_left fst snd]. fold (set_all (Dict.set acc k v) d).
    assert (Hk : ~ In k (Dict.keys acc)).
    { unfold Dict.keys in *. rewrite map_app in H. cbn [map fst] in H.
      apply NoDup_remove_2 in H. intros Hin. apply H. apply in_or_app. left. exact Hin. }
    rewrite (set_fresh acc k v Hk). rewrite IH.
    + rewrite <- app_assoc. reflexivity.
    + rewrite <- app_assoc. exact H.
Qed.

Lemma read_object_dumped (level : nat) (d : record) (fuel : nat) (rest : str) :
  Dict.wf d -> (length d <= fuel)%nat ->
  Json.read_object fuel (Json.dumps_dict level d ++ rest) = Some (d, rest).
Proof.
  intros Hwf Hf. destruct d as [|kv d]; [reflexivity|].
  unfold Json.dumps_dict, Json.read_object.
  change (py "{") with [123]. cbn [app]. rewrite <- !app_assoc.
  rewrite skip_ws_indent.
  pose proof (read_members_dumped (S level) level (kv :: d) ltac:(discriminate)
                fuel [] rest Hf) as H.
  rewrite (set_all_wf (kv :: d) []) in H by exact Hwf. cbn [app] in H.
  rewrite <- H. clear H.
  assert (Hs : forall tail,
    Json.skip_ws (Json.join (py "," ++ Json.newline_indent (S level))
                    (map Json.dumps_member (kv :: d)) ++ tail)
    = 34 :: tl (Json.join (py "," ++ Json.newline_indent (S level))
                  (map Json.dumps_member (kv :: d)) ++ tail)).
  { intros tail. destruct d; reflexivity. }
  rewrite Hs. cbv iota.
  assert (Hj : forall tail,
    34 :: tl (Json.join (py "," ++ Json.newline_indent (S level))
                  (map Json.dumps_member (kv :: d)) ++ tail)
    = Json.join (py "," ++ Json.newline_indent (S level))
                  (map Json.dumps_member (kv :: d)) ++ tail).
  { intros tail. destruct d; reflexivity. }
  rewrite Hj. reflexivity.
Qed.

Lemma dumps_dict_head (level : nat) (d : record) :
  Json.dumps_dict level d = 123 :: tl (Json.dumps_dict level d).
Proof. destruct d; reflexivity. Qed.

Lemma read_elements_dumped (ds : list record) :
  ds <> [] -> Forall Dict.wf ds ->
  forall (fuel : nat) (rest : str),
    (weight ds <= fuel)%nat ->
    Json.read_elements fuel
      (Json.join (py "," ++ Json.newline_indent 1) (map (Json.dumps_dict 1) ds)
       ++ Json.newline_indent 0 ++ py "]" ++ rest)
    = Some (ds, rest).
Proof.
  induction ds as [|d ds IH]; [congruence|]. intros _ Hwf fuel rest Hf.
  destruct fuel as [|fuel]; [simpl in Hf; lia|].
  inversion Hwf as [|? ? Hd Hds]; subst.
  cbn [weight] in Hf.
  destruct ds as [|d2 ds].
  - cbn [map Json.join Json.read_elements].
    rewrite read_object_dumped by (try exact Hd; lia).
    rewrite skip_ws_indent. reflexivity.
  - cbn [map]. rewrite join_cons2. rewrite <- !app_assoc.
    cbn [Json.read_elements].
    rewrite read_object_dumped by (try exact Hd; lia).
    change (py ",") with [44]. cbn [app].
    change (Json.skip_ws (44 :: ?x)) with (44 :: x). cbv iota.
    rewrite skip_ws_indent.
    assert (Hs : forall tail,
      Json.skip_ws (Json.join (44 :: Json.newline_indent 1)
                      (Json.dumps_dict 1 d2 :: map (Json.dumps_dict 1) ds) ++ tail)
      = Json.join (44 :: Json.newline_indent 1)
                      (Json.dumps_dict 1 d2 :: map (Json.dumps_dict 1) ds) ++ tail).
    { intros tail. destruct ds; cbn [Json.join]; rewrite (dumps_dict_head 1 d2);
        reflexivity. }
    rewrite Hs.
    specialize (IH ltac:(discriminate) Hds fuel rest ltac:(lia)).
    change (py ",") with [44] in IH. cbn [app map] in IH.
    match goal with
    | |- match ?X with _ => _ end = _ =>
      replace X with (Some (d2 :: ds, rest)) by (symmetry; exact IH)
    end.
    reflexivity.
Qed.

Lemma list_sum_cons (a : nat) (r : list nat) : list_sum (a :: r) = (a + list_sum r)%nat.
Proof. reflexivity. Qed.

Lemma join_length (sep : str) (parts : list str) :
  (list_sum (map (@length char) parts) <= length (Json.join sep parts))%nat.
Proof.
  induction parts as [|p parts IH]; [simpl; lia|].
  destruct parts as [|q parts]; [simpl; lia|].
  rewrite join_cons2. rewrite !length_app.
  cbn [map] in IH |- *. rewrite !list_sum_cons in *. lia.
Qed.

Lemma dumps_member_length (kv : str * str) : (1 <= length (Json.dumps_member kv))%nat.
Proof. unfold Json.dumps_member, Json.dumps_str. simpl. lia. Qed.

Lemma dumps_dict_length (level : nat) (d : record) :
  (S (length d) <= length (Json.dumps_dict level d))%nat.
Proof.
  destruct d as [|kv d]; [simpl; lia|].
  unfold Json.dumps_dict.
  pose proof (join_length (py "," ++ Json.newline_indent (S level))
                (map Json.dumps_member (kv :: d))) as H.
  assert (Hm : (length (kv :: d) <= list_sum (map (@length char)
                 (map Json.dumps_member (kv :: d))))%nat).
  { generalize (kv :: d). intros l. induction l as [|x l IHl]; [simpl; lia|].
    cbn [map length]. rewrite list_sum_cons.
    pose proof (dumps_member_length x). lia. }
  rewrite !length_app. change (length (py "{")) with 1%nat. lia.
Qed.

Lemma weight_le_text (ds : list record) :
  (weight ds <= length (Json.join (py "," ++ Json.newline_indent 1)
                          (map (Json.dumps_dict 1) ds)))%nat.
Proof.
  eapply Nat.le_trans; [|apply join_length].
  induction ds as [|d ds IH]; [simpl; lia|].
  cbn [weight map]. rewrite list_sum_cons. pose proof (dumps_dict_length 1 d). lia.
Qed.

(** Reading back the text written for a record sequence gives the sequence:
    the records in their order, each with its members in their order. *)
Lemma loads_dumps (countries : list record) :
  Forall Dict.wf countries -> Json.loads (Json.dumps countries) = Some countries.
Proof.
  intros Hwf. destruct countries as [|d ds]; [reflexivity|].
  unfold Json.loads, Json.dumps.
  set (body := Json.join (py "," ++ Json.newline_indent 1)
                 (map (Json.dumps_dict 1) (d :: ds))).
  assert (Hlen : (weight (d :: ds) <= S (length (py "[" ++ Json.newline_indent 1 ++ body
                    ++ Json.newline_indent 0 ++ py "]")))%nat).
  { pose proof (weight_le_text (d :: ds)) as H. fold body in H.
    rewrite !length_app. lia. }
  revert Hlen. generalize (S (length (py "[" ++ Json.newline_indent 1 ++ body
                    ++ Json.newline_indent 0 ++ py "]"))). intros fuel Hlen.
  change (py "[") with [91]. cbn [app Json.skip_ws Json.is_ws N.eqb Pos.eqb orb].
  unfold Json.read_array. rewrite skip_ws_indent.
  pose proof (read_elements_dumped (d :: ds) ltac:(discriminate) Hwf fuel [] Hlen) as H.
  fold body in H. rewrite app_nil_r in H.
  assert (Hb : exists t, body ++ Json.newline_indent 0 ++ py "]" = 123 :: t).
  { unfold body. destruct ds; cbn [map Json.join]; rewrite (dumps_dict_head 1 d);
      eexists; reflexivity. }
  destruct Hb as [t Hb]. rewrite Hb in H |- *.
  change (Json.skip_ws (123 :: t)) with (123 :: t). cbv iota.
  match goal with
  | |- match ?X with _ => _ end = _ =>
    replace X with (Some (d :: ds, @nil char)) by (symmetry; exact H)
  end.
  reflexivity.
Qed.

(** ** Writing the JSON file *)

Lemma save_to_json_run
    (open_w : str -> option exn) (encode_error : str -> exn)
    (countries : list record) (output_file : str) (w : world) :
  save_to_json open_w encode_error countries output_file w =
  match open_w output_file with
  | Some e => (printed w [json_failure_notice e], Return tt)
  | None =>
    if encodable_str (Json.dumps countries)
    then ({| console := console w ++ [saved_notice output_file];
             files := (output_file, Whole (Json.dumps countries)) :: files w |},
          Return tt)
    else ({| console := console w ++ [json_failure_notice
                                        (encode_error (Json.dumps countries))];
             files := (output_file, Prefix_of (Json.dumps countries)) :: files w |},
          Return tt)
  end.
Proof.
  unfold save_to_json, try_except, bind, write_text, print, printed,
    json_failure_notice, saved_notice, encodable_str.
  destruct (open_w output_file) as [e|]; [reflexivity|].
  destruct (forallb encodable (Json.dumps countries)); reflexivity.
Qed.

Lemma escape_char_encodable (c : char) :
  encodable c = true -> encodable_str (Json.escape_char c) = true.
Proof.
  intros H. unfold Json.escape_char.
  destruct (c =? 34); [reflexivity|].
  destruct (c =? 92); [reflexivity|].
  destruct (c =? 10); [reflexivity|].
  destruct (c =? 13); [reflexivity|].
  destruct (c =? 9); [reflexivity|].
  destruct (c =? 8); [reflexivity|].
  destruct (c =? 12); [reflexivity|].
  destruct (c <? 32) eqn:E.
  - clear H. apply below_32 in E.
    assert (K : forallb
                  (fun c => encodable_str
                              [92; 117; 48; 48; Json.hex_digit (c / 16);
                               Json.hex_digit (c mod 16)])
                  (map N.of_nat (seq 0 32)) = true)
      by (vm_compute; reflexivity).
    rewrite forallb_forall in K. exact (K c E).
  - unfold encodable_str. cbn [forallb]. rewrite H. reflexivity.
Qed.

Lemma encodable_app (a b : str) :
  encodable_str (a ++ b) = encodable_str a && encodable_str b.
Proof. apply forallb_app. Qed.

Lemma dumps_str_encodable (s : str) :
  encodable_str s = true -> encodable_str (Json.dumps_str s) = true.
Proof.
  intros H. unfold Json.dumps_str.
  change (dq :: flat_map Json.escape_char s ++ [dq])
    with ([dq] ++ flat_map Json.escape_char s ++ [dq]).
  rewrite !encodable_app. 
  assert (E : encodable_str (flat_map Json.escape_char s) = true).
  { induction s as [|c s IH]; [reflexivity|].
    cbn [flat_map]. rewrite encodable_app.
    unfold encodable_str in H. cbn [forallb] in H. apply andb_true_iff in H.
    destruct H as [Hc Hs]. rewrite (escape_char_encodable c Hc). apply IH. exact Hs. }
  rewrite E. reflexivity.
Qed.

Lemma join_encodable (sep : str) (parts : list str) :
  encodable_str sep = true -> forallb encodable_str parts = true ->
  encodable_str (Json.join sep parts) = true.
Proof.
  intros Hs. induction parts as [|p parts IH]; intros H; [reflexivity|].
  cbn [forallb] in H. apply andb_true_iff in H. destruct H as [Hp Hr].
  destruct parts as [|q parts]; [exact Hp|].
  rewrite join_cons2, !encodable_app, Hp, Hs, (IH Hr). reflexivity.
Qed.

Lemma newline_indent_encodable (level : nat) :
  encodable_str (Json.newline_indent level) = true.
Proof.
  unfold Json.newline_indent. generalize (2 * level)%nat. intros k.
  unfold encodable_str. cbn [forallb]. 
  induction k as [|k IH]; [reflexivity|exact IH].
Qed.

Lemma dumps_dict_encodable (level : nat) (d : record) :
  encodable_record d = true -> encodable_str (Json.dumps_dict level d) = true.
Proof.
  intros H. destruct d as [|kv d]; [reflexivity|].
  unfold Json.dumps_dict. rewrite !encodable_app, !newline_indent_encodable.
  rewrite join_encodable.
  - reflexivity.
  - rewrite encodable_app, newline_indent_encodable. reflexivity.
  - revert H. generalize (kv :: d). intros l. unfold encodable_record.
    induction l as [|[k v] l IH]; intros H; [reflexivity|].
    cbn [forallb map fst snd] in H |- *.
    apply andb_true_iff in H. destruct H as [Hkv Hl].
    apply andb_true_iff in Hkv. destruct Hkv as [Hk Hv].
    rewrite (IH Hl), andb_true_r.
    unfold Json.dumps_member. cbn [fst snd].
    rewrite !encodable_app, (dumps_str_encodable k Hk), (dumps_str_encodable v Hv).
    reflexivity.
Qed.

Lemma dumps_encodable (countries : list record) :
  encodable_records countries = true -> encodable_str (Json.dumps countries) = true.
Proof.
  intros H. destruct countries as [|d ds]; [reflexivity|].
  unfold Json.dumps. rewrite !encodable_app, !newline_indent_encodable.
  rewrite join_encodable.
  - reflexivity.
  - rewrite encodable_app, newline_indent_encodable. reflexivity.
  - revert H. generalize (d :: ds). intros l. unfold encodable_records.
    induction l as [|x l IH]; intros H; [reflexivity|].
    cbn [forallb map] in H |- *. apply andb_true_iff in H. destruct H as [Hx Hl].
    rewrite (dumps_dict_encodable 1 x Hx), (IH Hl). reflexivity.
Qed.

(** C8.  When the output file opens and the records hold encodable text,
    save_to_json leaves in the file a text from which a JSON reader recovers
    the sequence it was given: the same records in the same order, each with
    the same keys and values in the same order, every code point as it
    was. *)
Theorem json_round_trip
    (open_w : str -> option exn) (encode_error : str -> exn)
    (countries : list record) (output_file : str) (w : world) :
  Forall Dict.wf countries ->
  encodable_records countries = true ->
  open_w output_file = None ->
  exists text,
    save_to_json open_w encode_error countries output_file w
    = ({| console := console w ++ [saved_notice output_file];
          files := (output_file, Whole text) :: files w |}, Return tt)
    /\ Json.loads text = Some countries.
Proof.
  intros Hwf Henc Hopen. exists (Json.dumps countries). split.
  - rewrite save_to_json_run, Hopen, (dumps_encodable countries Henc). reflexivity.
  - apply loads_dumps. exact Hwf.
Qed.

Lemma json_round_trip_witness :
  exists text,
    save_to_json (fun _ => None) (fun _ => {| kind := UnicodeError; message := [] |})
      sample_records (py "countries.json") empty_world
    = ({| console := console empty_world ++ [saved_notice (py "countries.json")];
          files := (py "countries.json", Whole text) :: files empty_world |}, Return tt)
    /\ Json.loads text = Some sample_records.
Proof.
  apply (json_round_trip (fun _ => None)
           (fun _ => {| kind := UnicodeError; message := [] |})
           sample_records (py "countries.json") empty_world).
  - repeat constructor; vm_compute; intuition discriminate.
  - vm_compute. reflexivity.
  - reflexivity.
Defined.

(** ** The fields of an extracted record *)

Ltac split_attributes get_attr :=
  destruct (get_attr a_id) as [[|? ?]|];
  destruct (get_attr a_name_zht) as [[|? ?]|];
  destruct (get_attr a_name_zh) as [[|? ?]|];
  destruct (get_attr a_name_en) as [?|];
  destruct (get_attr a_formal_en) as [?|];
  destruct (get_attr a_type) as [?|];
  destruct (get_attr a_sovereignt) as [?|].

Lemma xml_record_keys (path : element) :
  Dict.keys (xml_country_info path) = fields.
Proof.
  unfold xml_country_info, Dict.get_or.
  split_attributes (Dict.get path); reflexivity.
Qed.

Lemma regex_record_keys (path_tag : str) :
  Dict.keys (regex_country_info path_tag)
  = filter (carries (regex_country_info path_tag)) fields.
Proof.
  unfold regex_country_info, set_if_match.
  split_attributes (fun a => Regex.search_attr a path_tag); reflexivity.
Qed.

Lemma fields_nodup : NoDup fields.
Proof.
  assert (H : forall l : list str,
             (fix nodupb (l : list str) : bool :=
                match l with
                | [] => true
                | x :: r => negb (existsb (str_eqb x) r) && nodupb r
                end) l = true -> NoDup l).
  { induction l as [|x r IH]; intros H; [constructor|].
    apply andb_true_iff in H. destruct H as [H1 H2]. constructor; [|exact (IH H2)].
    intros Hin. apply negb_true_iff in H1.
    assert (E : existsb (str_eqb x) r = true).
    { apply existsb_exists. exists x. split; [exact Hin|apply str_eqb_refl]. }
    congruence. }
  apply H. vm_compute. reflexivity.
Qed.

Lemma xml_countries_wf (paths : list element) : Forall Dict.wf (xml_countries paths).
Proof.
  apply Forall_forall. intros r Hr. unfold xml_countries in Hr.
  apply filter_In in Hr. destruct Hr as [Hr _]. apply in_map_iff in Hr.
  destruct Hr as (p & <- & _). unfold Dict.wf. rewrite xml_record_keys.
  exact fields_nodup.
Qed.

Lemma regex_countries_wf (content : str) : Forall Dict.wf (regex_countries content).
Proof.
  apply Forall_forall. intros r Hr. unfold regex_countries in Hr.
  apply filter_In in Hr. destruct Hr as [Hr _]. apply in_map_iff in Hr.
  destruct Hr as (p & <- & _). unfold Dict.wf. rewrite regex_record_keys.
  apply NoDup_filter. exact fields_nodup.
Qed.

(** C5.  The JSON file does not hold the six fields for every record.  The
    text <svg><path id=XYZ> is rejected by the parser, the fallback returns
    the record with the fields id and name_zh only, and [save_to_json]
    writes that record as it is: the file holds an object with the two
    members id and name_zh, and none of name_en, formal_en, type and
    sovereignty occurs in it.  For the document <svg><path id=XYZ/></svg>
    the XML strategy returns all six fields and the file holds all six
    members. *)
Theorem fallback_json_lacks_fields :
  bind (extract_countries_from_svg (two_files_parse id_only_nodes)
          (two_files_read id_only_text) (py "broken.svg"))
       (fun countries =>
          save_to_json (fun _ => None) no_encode_error countries (py "countries.json"))
       empty_world
  = ({| console := [fallback_notice; saved_notice (py "countries.json")];
        files := [(py "countries.json", Whole two_member_json)] |},
     Return tt)
  /\ map (fun field => contains (Json.dumps_str field) two_member_json) fields
     = [true; true; false; false; false; false]
  /\ Json.loads two_member_json = Some [[(f_id, py "XYZ"); (f_name_zh, py "XYZ")]]
  /\ (exists text,
        bind (extract_countries_from_svg (two_files_parse id_only_nodes)
                (two_files_read id_only_text) (py "map.svg"))
             (fun countries =>
                save_to_json (fun _ => None) no_encode_error countries
                  (py "countries.json"))
             empty_world
        = ({| console := [saved_notice (py "countries.json")];
              files := [(py "countries.json", Whole text)] |},
           Return tt)
        /\ map (fun field => contains (Json.dumps_str field) text) fields
           = [true; true; true; true; true; true]
        /\ Json.loads text
           = Some [[(f_id, py "XYZ"); (f_name_zh, py "XYZ"); (f_name_en, []);
                    (f_formal_en, []); (f_type, []); (f_sovereignty, [])]]).
Proof.
  split; [vm_compute; reflexivity|].
  split; [vm_compute; reflexivity|].
  split; [vm_compute; reflexivity|].
  eexists. split; [vm_compute; reflexivity|].
  split; vm_compute; reflexivity.
Qed.

(** ** The CSV file *)

Lemma set_six (v1 v2 v3 v4 v5 v6 : str) :
  Dict.set (Dict.set (Dict.set (Dict.set (Dict.set (Dict.set [] f_id v1)
    f_name_zh v2) f_name_en v3) f_formal_en v4) f_type v5) f_sovereignty v6
  = [(f_id, v1); (f_name_zh, v2); (f_name_en, v3); (f_formal_en, v4); (f_type, v5);
     (f_sovereignty, v6)].
Proof. reflexivity. Qed.

Lemma csv_row_values (country : record) :
  csv_row country = combine fields (csv_values country).
Proof.
  unfold csv_row, csv_values, fields. cbn [fold_left map combine]. apply set_six.
Qed.

Lemma csv_writerow (country : record) :
  Csv.writerow fields (csv_row country) = Return (csv_line (csv_values country)).
Proof.
  rewrite csv_row_values. unfold csv_values, fields. cbn [map combine].
  generalize (Dict.get_or country f_id []) as v1, (Dict.get_or country f_name_zh []) as v2,
    (Dict.get_or country f_name_en []) as v3, (Dict.get_or country f_formal_en []) as v4,
    (Dict.get_or country f_type []) as v5, (Dict.get_or country f_sovereignty []) as v6.
  intros. destruct v1; reflexivity.
Qed.

Lemma csv_rows_text (countries : list record) :
  csv_rows countries
  = (concat (map (fun country => csv_line (csv_values country)) countries), None).
Proof.
  induction countries as [|c r IH]; [reflexivity|].
  cbn [csv_rows map concat]. rewrite csv_writerow, IH. reflexivity.
Qed.

Lemma with_bom_header (body : str) :
  with_bom (csv_header ++ body) = bom :: csv_header ++ body.
Proof.
  destruct csv_header as [|c h] eqn:E; [vm_compute in E; discriminate E|].
  reflexivity.
Qed.

Lemma csv_header_text : Csv.writeheader fields = Return csv_header.
Proof. vm_compute. reflexivity. Qed.

Lemma csv_text_eq (countries : list record) :
  csv_text countries
  = (csv_header ++ concat (map (fun country => csv_line (csv_values country)) countries),
     None).
Proof.
  unfold csv_text. rewrite csv_header_text, csv_rows_text. reflexivity.
Qed.

Example csv_sample_text :
  fst (csv_text sample_records)
  = csv_header
    ++ py "CHN,中国,China," ++ [dq; dq; dq] ++ py "\" ++ [9; 1]
    ++ py "People's Republic" ++ [dq]
    ++ py ",,China" ++ [13; 10]
    ++ py "XYZ,XYZ,,,," ++ [13; 10].
Proof. vm_compute. reflexivity. Qed.

(** ** The two strategies on the same attribute data *)

Lemma targets_ok : forallb target_ok targets = true.
Proof. vm_compute. reflexivity. Qed.

Lemma match_attr_head (name s : str) (c : char) :
  target_ok name = true -> (c =? 105) = false -> (c =? 100) = false ->
  Regex.match_attr name (c :: s) = None.
Proof.
  intros Ht H1 H2. destruct name as [|t name]; [discriminate|].
  unfold target_ok in Ht. apply andb_true_iff in Ht. destruct Ht as [Ht _].
  unfold Regex.match_attr. cbn [app strip_prefix].
  destruct (t =? c) eqn:E; [|reflexivity].
  apply N.eqb_eq in E. subst c. rewrite H1, H2 in Ht. discriminate.
Qed.

Lemma match_attr_nil (name : str) :
  target_ok name = true -> Regex.match_attr name [] = None.
Proof. intros Ht. destruct name; [discriminate|reflexivity]. Qed.

(** A pattern ending in [q] matches, before the first [q] of the text, only
    the text up to that [q]. *)
Lemma strip_prefix_upto (q : char) (p x rest r : str) :
  ~ In q p -> ~ In q x ->
  strip_prefix (p ++ [q]) (x ++ q :: rest) = Some r -> x = p.
Proof.
  revert x; induction p as [|a p IH]; intros x Hp Hx H.
  - destruct x as [|c x]; [reflexivity|].
    cbn [app strip_prefix] in H. destruct (q =? c) eqn:E; [|discriminate].
    apply N.eqb_eq in E. exfalso. apply Hx. left. symmetry. exact E.
  - destruct x as [|c x]; cbn [app strip_prefix] in H.
    + destruct (a =? q) eqn:E; [|discriminate].
      apply N.eqb_eq in E. exfalso. apply Hp. left. exact E.
    + destruct (a =? c) eqn:E; [|discriminate].
      apply N.eqb_eq in E. subst c. f_equal. apply IH.
      * intros Hin. apply Hp. right. exact Hin.
      * intros Hin. apply Hx. right. exact Hin.
      * exact H.
Qed.

Lemma no_quote_not_in (s : str) :
  forallb (fun c => negb (c =? dq)) s = true -> ~ In dq s.
Proof.
  intros H Hin. rewrite forallb_forall in H. specialize (H dq Hin).
  rewrite N.eqb_refl in H. discriminate.
Qed.

Lemma clean_not_in (s : str) :
  no_quote_no_gt s = true -> ~ In dq s /\ ~ In Regex.gt s.
Proof.
  intros H. unfold no_quote_no_gt in H. rewrite forallb_forall in H.
  split; intros Hin; specialize (H _ Hin); rewrite N.eqb_refl in H;
    [discriminate|]. rewrite andb_false_r in H. discriminate.
Qed.

Lemma not_in_app_one (q c : char) (s : str) : ~ In q s -> q <> c -> ~ In q (s ++ [c]).
Proof.
  intros Hs Hc Hin. apply in_app_or in Hin. destruct Hin as [H|[H|[]]].
  - exact (Hs H).
  - apply Hc. symmetry. exact H.
Qed.

Section OneTarget.

Variable name : str.
Hypothesis Hname : target_ok name = true.

Let name_no_quote : ~ In dq name.
Proof.
  unfold target_ok in Hname. apply andb_true_iff in Hname.
  apply no_quote_not_in. apply Hname.
Qed.

(** Inside an attribute name the pattern matches only where the rest of the
    name is the name looked for. *)
Lemma match_in_name (k v rest : str) :
  ~ In dq k ->
  str_eqb name k = false ->
  Regex.match_attr name (k ++ 61 :: dq :: v ++ dq :: rest) = None.
Proof.
  intros Hk Hne. unfold Regex.match_attr.
  destruct (strip_prefix _ _) as [r|] eqn:E; [|reflexivity].
  exfalso. apply str_eqb_neq in Hne. apply Hne.
  change (py "=") with [61] in E.
  assert (Hx : k ++ [61] = name ++ [61]).
  { apply (strip_prefix_upto dq (name ++ [61]) (k ++ [61]) (v ++ dq :: rest) r).
    - apply not_in_app_one; [exact name_no_quote|discriminate].
    - apply not_in_app_one; [exact Hk|discriminate].
    - rewrite <- !app_assoc. exact E. }
  apply app_inj_tail in Hx. symmetry. apply Hx.
Qed.

Lemma search_past_name (k v rest : str) :
  ~ In dq k ->
  ends_with name k = false ->
  Regex.search_attr name (k ++ 61 :: dq :: v ++ dq :: rest)
  = Regex.search_attr name (dq :: v ++ dq :: rest).
Proof.
  induction k as [|c k IH]; intros Hk He.
  - cbn [app Regex.search_attr].
    rewrite match_attr_head by (try exact Hname; reflexivity). reflexivity.
  - cbn [ends_with] in He. apply orb_false_iff in He. destruct He as [He1 He2].
    pose proof (match_in_name (c :: k) v rest Hk He1) as Hm.
    cbn [app] in Hm |- *. cbn [Regex.search_attr]. rewrite Hm.
    apply IH; [|exact He2]. intros Hin. apply Hk. right. exact Hin.
Qed.

(** Inside an attribute value the pattern matches only where the rest of the
    value is the name looked for and an equals sign. *)
Lemma match_in_value (v rest : str) :
  ~ In dq v ->
  str_eqb (name ++ py "=") v = false ->
  Regex.match_attr name (v ++ dq :: rest) = None.
Proof.
  intros Hv Hne. unfold Regex.match_attr.
  destruct (strip_prefix _ _) as [r|] eqn:E; [|reflexivity].
  exfalso. apply str_eqb_neq in Hne. apply Hne.
  change (py "=") with [61] in E |- *. symmetry.
  apply (strip_prefix_upto dq (name ++ [61]) v rest r).
  - apply not_in_app_one; [exact name_no_quote|discriminate].
  - exact Hv.
  - rewrite <- !app_assoc. exact E.
Qed.

Lemma search_past_value (v rest : str) :
  ~ In dq v ->
  ends_with (name ++ py "=") v = false ->
  Regex.search_attr name (v ++ dq :: rest) = Regex.search_attr name rest.
Proof.
  induction v as [|c v IH]; intros Hv He.
  - cbn [app Regex.search_attr].
    rewrite match_attr_head by (try exact Hname; reflexivity). reflexivity.
  - cbn [ends_with] in He. apply orb_false_iff in He. destruct He as [He1 He2].
    pose proof (match_in_value (c :: v) rest Hv He1) as Hm.
    cbn [app] in Hm |- *. cbn [Regex.search_attr]. rewrite Hm.
    apply IH; [|exact He2]. intros Hin. apply Hv. right. exact Hin.
Qed.

Lemma search_attributes (attrs : element) (tail : str) :
  clean_for name attrs ->
  Regex.search_attr name (concat (map attr_text attrs) ++ tail)
  = match Dict.get attrs name with
    | Some v => Some v
    | None => Regex.search_attr name tail
    end.
Proof.
  induction attrs as [|[k v] attrs IH]; intros Hc; [reflexivity|].
  inversion Hc as [|? ? (Hk & Hv & Hkn & Hvn) Hrest]; subst. cbn [fst snd] in *.
  cbn [map concat Dict.get]. unfold attr_text. cbn [fst snd].
  change (py " ") with [32]. change (py "=") with [61].
  rewrite <- !app_assoc. cbn [app].
  cbn [Regex.search_attr].
  rewrite match_attr_head by (try exact Hname; reflexivity).
  destruct (str_eqb k name) eqn:E.
  - apply str_eqb_eq in E. subst k.
    pose proof (search_attr_here name v (concat (map attr_text attrs) ++ tail) Hv) as H.
    change (py "=") with [61] in H. cbn [app] in H.
    exact H.
  - destruct Hkn as [Hkn|Hkn].
    + rewrite str_eqb_sym in Hkn. congruence.
    + rewrite (search_past_name k v _ Hk Hkn).
      cbn [Regex.search_attr].
      rewrite match_attr_head by (try exact Hname; reflexivity).
      rewrite (search_past_value v _ Hv Hvn).
      apply IH. exact Hrest.
Qed.

Lemma search_tag (attrs : element) :
  clean_for name attrs ->
  Regex.search_attr name (tag_text attrs) = Dict.get attrs name.
Proof.
  intros Hc. unfold tag_text.
  change (py "<path") with [60; 112; 97; 116; 104]. change (py ">") with [62].
  cbn [app Regex.search_attr].
  rewrite !match_attr_head by (try exact Hname; reflexivity).
  rewrite (search_attributes attrs [62] Hc).
  destruct (Dict.get attrs name) as [v|]; [reflexivity|].
  cbn [Regex.search_attr].
  rewrite match_attr_head by (try exact Hname; reflexivity).
  rewrite match_attr_nil by exact Hname. reflexivity.
Qed.

End OneTarget.

Lemma in_targets_ok (t : str) : In t targets -> target_ok t = true.
Proof.
  intros H. pose proof targets_ok as K. rewrite forallb_forall in K. exact (K t H).
Qed.

Lemma clean_node_for (attrs : element) (t : str) :
  clean_node attrs = true -> In t targets -> clean_for t attrs.
Proof.
  intros Hc Ht. unfold clean_node in Hc. apply andb_true_iff in Hc.
  destruct Hc as [Hc _]. rewrite forallb_forall in Hc.
  apply Forall_forall. intros [k v] Hkv. specialize (Hc _ Hkv). cbn [fst snd] in *.
  apply andb_true_iff in Hc. destruct Hc as [Hk Hv].
  unfold clean_name in Hk. unfold clean_value in Hv.
  apply andb_true_iff in Hk. destruct Hk as [Hk1 Hk2].
  apply andb_true_iff in Hv. destruct Hv as [Hv1 Hv2].
  rewrite forallb_forall in Hk2, Hv2. specialize (Hk2 t Ht). specialize (Hv2 t Ht).
  split; [apply clean_not_in; exact Hk1|].
  split; [apply clean_not_in; exact Hv1|].
  split.
  - apply orb_true_iff in Hk2. destruct Hk2 as [H|H]; [left; exact H|].
    right. apply negb_true_iff. exact H.
  - apply negb_true_iff. exact Hv2.
Qed.

Lemma target_cases :
  In a_id targets /\ In a_name_zht targets /\ In a_name_zh targets
  /\ In a_name_en targets /\ In a_formal_en targets /\ In a_type targets
  /\ In a_sovereignt targets.
Proof. unfold targets. cbn [In]. tauto. Qed.

(** On the tag of a clean node every pattern finds the attribute of its
    name. *)
Lemma clean_searches (attrs : element) (t : str) :
  clean_node attrs = true -> In t targets ->
  Regex.search_attr t (tag_text attrs) = Dict.get attrs t.
Proof.
  intros Hc Ht. apply search_tag.
  - apply in_targets_ok. exact Ht.
  - apply clean_node_for; assumption.
Qed.

Lemma clean_node_records (attrs : element) :
  clean_node attrs = true ->
  xml_country_info attrs = normalize (regex_country_info (tag_text attrs))
  /\ has_name (xml_country_info attrs) = has_name (regex_country_info (tag_text attrs)).
Proof.
  intros Hc.
  destruct target_cases as (T1 & T2 & T3 & T4 & T5 & T6 & T7).
  unfold regex_country_info, set_if_match.
  rewrite (clean_searches attrs a_id Hc T1), (clean_searches attrs a_name_zht Hc T2),
    (clean_searches attrs a_name_zh Hc T3), (clean_searches attrs a_name_en Hc T4),
    (clean_searches attrs a_formal_en Hc T5), (clean_searches attrs a_type Hc T6),
    (clean_searches attrs a_sovereignt Hc T7).
  unfold clean_node in Hc. apply andb_true_iff in Hc. destruct Hc as [_ Hl].
  unfold local_name_ok in Hl. revert Hl.
  unfold xml_country_info, Dict.get_or.
  split_attributes (Dict.get attrs); intros Hl; try discriminate Hl;
    split; reflexivity.
Qed.

(** *** Finding the tags *)

Lemma findall_skip (xs rest : str) :
  Regex.findall_from (length xs) (xs ++ rest) = Regex.findall_from 0 rest.
Proof. induction xs as [|c xs IH]; [reflexivity|exact IH]. Qed.

Lemma attrs_no_gt (attrs : element) :
  forallb (fun kv => clean_name (fst kv) && clean_value (snd kv)) attrs = true ->
  ~ In Regex.gt (concat (map attr_text attrs)).
Proof.
  induction attrs as [|[k v] attrs IH]; intros H; [intros []|].
  cbn [forallb fst snd] in H. apply andb_true_iff in H. destruct H as [Hkv Hr].
  apply andb_true_iff in Hkv. destruct Hkv as [Hk Hv].
  unfold clean_name in Hk. apply andb_true_iff in Hk. destruct Hk as [Hk _].
  unfold clean_value in Hv. apply andb_true_iff in Hv. destruct Hv as [Hv _].
  apply clean_not_in in Hk. apply clean_not_in in Hv.
  cbn [map concat]. unfold attr_text. cbn [fst snd].
  change (py " ") with [32]. change (py "=") with [61].
  intros Hin. repeat (apply in_app_or in Hin; destruct Hin as [Hin|Hin]).
  - destruct Hin as [Hin|[]]. discriminate Hin.
  - apply Hk. exact Hin.
  - destruct Hin as [Hin|[]]. discriminate Hin.
  - destruct Hin as [Hin|[]]. discriminate Hin.
  - apply Hv. exact Hin.
  - destruct Hin as [Hin|[]]. discriminate Hin.
  - exact (IH Hr Hin).
Qed.

Lemma tag_text_shape (attrs : element) :
  attrs <> [] ->
  exists body,
    concat (map attr_text attrs) = 32 :: body.
Proof.
  destruct attrs as [|[k v] attrs]; [congruence|]. intros _.
  cbn [map concat]. unfold attr_text. change (py " ") with [32].
  rewrite <- !app_assoc. cbn [app]. eexists. reflexivity.
Qed.

Lemma match_clean_tag (attrs : element) (rest : str) :
  attrs <> [] ->
  forallb (fun kv => clean_name (fst kv) && clean_value (snd kv)) attrs = true ->
  Regex.match_path_tag (tag_text attrs ++ rest) = Some (tag_text attrs).
Proof.
  intros Hne Hc. pose proof (attrs_no_gt attrs Hc) as Hgt.
  destruct (tag_text_shape attrs Hne) as [body Hb].
  unfold tag_text. rewrite Hb in Hgt |- *.
  change (py "<path") with [60; 112; 97; 116; 104]. change (py ">") with [62].
  rewrite <- !app_assoc. cbn [app].
  assert (Hbody : ~ In Regex.gt body) by (intros Hin; apply Hgt; right; exact Hin).
  unfold Regex.match_path_tag.
  change (Regex.strip_prefix_ci (py "<path")
            (60 :: 112 :: 97 :: 116 :: 104 :: 32 :: body ++ 62 :: rest))
    with (Some (32 :: body ++ 62 :: rest)).
  cbv iota. change (Regex.is_space 32) with true. cbv iota.
  pose proof (until_complete Regex.gt body rest Hbody) as Hu.
  match goal with
  | |- match ?X with _ => _ end = _ => replace X with (Some body) by (symmetry; exact Hu)
  end.
  reflexivity.
Qed.

Lemma findall_clean_tag (attrs : element) (rest : str) :
  attrs <> [] ->
  forallb (fun kv => clean_name (fst kv) && clean_value (snd kv)) attrs = true ->
  Regex.findall_from 0 (tag_text attrs ++ rest)
  = tag_text attrs :: Regex.findall_from 0 rest.
Proof.
  intros Hne Hc. pose proof (match_clean_tag attrs rest Hne Hc) as Hm.
  assert (Hs : exists t, tag_text attrs = 60 :: t).
  { unfold tag_text. change (py "<path") with [60; 112; 97; 116; 104].
    cbn [app]. eexists. reflexivity. }
  destruct Hs as [t Ht]. rewrite Ht in Hm |- *. cbn [app] in Hm |- *.
  cbn [Regex.findall_from]. rewrite Hm. f_equal.
  match goal with
  | |- Regex.findall_from ?n _ = _ =>
    replace n with (length t) by (cbn [length Nat.sub]; symmetry; apply Nat.sub_0_r)
  end.
  apply findall_skip.
Qed.

Lemma findall_empty_tag (rest : str) :
  Regex.findall_from 0 (tag_text [] ++ rest) = Regex.findall_from 0 rest.
Proof.
  unfold tag_text. change (py "<path") with [60; 112; 97; 116; 104].
  change (py ">") with [62]. cbn [map concat app].
  cbn [Regex.findall_from].
  unfold Regex.match_path_tag. change (py "<path") with [60; 112; 97; 116; 104].
  reflexivity.
Qed.

Lemma findall_svg (rest : str) :
  Regex.findall_from 0 (py "<svg>" ++ rest) = Regex.findall_from 0 rest.
Proof.
  change (py "<svg>") with [60; 115; 118; 103; 62]. cbn [app].
  cbn [Regex.findall_from].
  unfold Regex.match_path_tag. change (py "<path") with [60; 112; 97; 116; 104].
  reflexivity.
Qed.

Lemma findall_clean_tags (nodes : list element) :
  forallb clean_node nodes = true ->
  Regex.findall_from 0 (concat (map tag_text nodes))
  = map tag_text (filter has_attributes nodes).
Proof.
  induction nodes as [|attrs nodes IH]; intros H; [reflexivity|].
  cbn [forallb] in H. apply andb_true_iff in H. destruct H as [Hn Hr].
  cbn [map concat filter]. destruct attrs as [|kv attrs].
  - rewrite findall_empty_tag. apply IH. exact Hr.
  - cbn [has_attributes map]. rewrite findall_clean_tag.
    + rewrite (IH Hr). reflexivity.
    + discriminate.
    + unfold clean_node in Hn. apply andb_true_iff in Hn. apply Hn.
Qed.

(** The two record builders on the same attribute data.  When the data is
    clean, the XML strategy on the attributes gives what the fallback
    strategy gives on the tags written by [tag_text] (every value as it
    stands, between double quotes) after an opening svg tag, once the fields
    a fallback record lacks are set to the empty text.  This relates the two
    readings of attribute values as they are written; what the parser does
    to a value on its way from the text of a document (entity references,
    white space) is outside it. *)
Lemma clean_strategies_agree (nodes : list element) :
  forallb clean_node nodes = true ->
  xml_countries nodes
  = map normalize (regex_countries (py "<svg>" ++ concat (map tag_text nodes))).
Proof.
  intros H. unfold regex_countries, Regex.findall_path_tags.
  rewrite findall_svg, (findall_clean_tags nodes H). unfold xml_countries.
  induction nodes as [|attrs nodes IH]; [reflexivity|].
  cbn [forallb] in H. apply andb_true_iff in H. destruct H as [Hn Hr].
  destruct (clean_node_records attrs Hn) as [Hrec Hnm].
  cbn [map filter]. destruct attrs as [|kv attrs].
  - cbn [has_attributes]. 
    change (has_name (xml_country_info [])) with false. cbv iota.
    apply IH. exact Hr.
  - cbn [has_attributes map filter]. rewrite <- Hnm.
    destruct (has_name (xml_country_info (kv :: attrs))).
    + cbn [map]. rewrite <- Hrec, <- (IH Hr). reflexivity.
    + apply IH. exact Hr.
Qed.

(** C1.  The two strategies do not return identical records.  The document
    <svg><path id=XYZ/></svg> parses to one path element whose only
    attribute is its id; the text <svg><path id=XYZ> (the same tags, left
    open) is rejected by the parser and goes to the fallback.  On the
    document the XML strategy returns a record with all six fields, four of
    them empty; on the text the fallback strategy returns a record with the
    two fields id and name_zh and no other: the pattern of a missing
    attribute does not match and its key is never set. *)
Theorem strategies_differ_on_id_only :
  id_only_text = py "<svg>" ++ concat (map tag_text id_only_nodes)
  /\ extract_countries_from_svg (two_files_parse id_only_nodes)
       (two_files_read id_only_text) (py "map.svg") empty_world
     = (empty_world,
        Return [[(f_id, py "XYZ"); (f_name_zh, py "XYZ"); (f_name_en, []);
                 (f_formal_en, []); (f_type, []); (f_sovereignty, [])]])
  /\ extract_countries_from_svg (two_files_parse id_only_nodes)
       (two_files_read id_only_text) (py "broken.svg") empty_world
     = (printed empty_world [fallback_notice],
        Return [[(f_id, py "XYZ"); (f_name_zh, py "XYZ")]])
  /\ map Dict.keys (xml_countries id_only_nodes) = [fields]
  /\ map Dict.keys (regex_countries id_only_text) = [[f_id; f_name_zh]]
  /\ xml_countries id_only_nodes <> regex_countries id_only_text.
Proof.
  split; [vm_compute; reflexivity|].
  split; [vm_compute; reflexivity|].
  split; [vm_compute; reflexivity|].
  split; [vm_compute; reflexivity|].
  split; [vm_compute; reflexivity|].
  intros H. vm_compute in H. discriminate H.
Qed.

Example sample_nodes_records :
  map (fun r => Dict.get_or r f_name_zh []) (xml_countries sample_nodes)
  = [py "中国"; py "XYZ"; py "美国"].
Proof. vm_compute. reflexivity. Qed.

(** * Further properties of the program *)

(** ** Extraction: errors, order and the filter *)

(** X1.  The fallback extractor never raises: a file that cannot be read
    gives the empty sequence and one message; a file that can be read gives
    the records found in it and prints nothing.  No file is written. *)
Theorem regex_extraction_contained
    (read_text : str -> outcome str) (file_path : str) (w : world) :
  exists (w' : world) (countries : list record),
    extract_countries_with_regex read_text file_path w = (w', Return countries)
    /\ files w' = files w
    /\ match read_text file_path with
       | Raise e => countries = [] /\ w' = printed w [read_failure_notice e]
       | Return content => countries = regex_countries content /\ w' = w
       end.
Proof.
  rewrite regex_extraction_run.
  destruct (read_text file_path) as [content|e].
  - exists w, (regex_countries content). repeat split.
  - exists (printed w [read_failure_notice e]), []. repeat split.
Qed.

(** X2.  extract_countries_from_svg raises exactly when [ET.parse] raises
    something other than a ParseError; the exception is the parser's own,
    nothing has been printed and the fallback has not run. *)
Theorem svg_extraction_raises_iff
    (ET_parse : str -> outcome tree) (read_text : str -> outcome str)
    (file_path : str) (w w' : world) (e : exn) :
  extract_countries_from_svg ET_parse read_text file_path w = (w', Raise e)
  <-> ET_parse file_path = Raise e /\ kind e <> ParseError /\ w' = w.
Proof.
  rewrite svg_extraction_run. split.
  - destruct (ET_parse file_path) as [root|e0]; [discriminate|].
    destruct (kind e0) eqn:K.
    + destruct (read_text file_path); discriminate.
    + intros [= <- <-]. rewrite K. repeat split. discriminate.
    + intros [= <- <-]. rewrite K. repeat split. discriminate.
    + intros [= <- <-]. rewrite K. repeat split. discriminate.
  - intros (Hp & Hk & ->). rewrite Hp.
    destruct (kind e); [congruence| | |]; reflexivity.
Qed.

Lemma svg_extraction_raises_iff_witness :
  extract_countries_from_svg (fun p => Raise (file_not_found p))
    (fun _ => Return []) (py "map.svg") empty_world
  = (empty_world, Raise (file_not_found (py "map.svg"))).
Proof.
  apply (svg_extraction_raises_iff (fun p => Raise (file_not_found p))
           (fun _ => Return []) (py "map.svg") empty_world empty_world
           (file_not_found (py "map.svg"))).
  repeat split. discriminate.
Defined.

(** X3.  The XML strategy works node by node: the records of two runs of
    path elements, one after the other, are the records of the first
    followed by the records of the second.  So document order is kept, a
    node that occurs twice gives its record twice, and there are never more
    records than nodes. *)
Theorem xml_countries_app (paths1 paths2 : list element) (path : element) :
  xml_countries (paths1 ++ paths2) = xml_countries paths1 ++ xml_countries paths2
  /\ xml_countries (path :: path :: paths2)
     = xml_countries [path] ++ xml_countries [path] ++ xml_countries paths2
  /\ (length (xml_countries paths1) <= length paths1)%nat.
Proof.
  unfold xml_countries. split; [|split].
  - rewrite map_app, filter_app. reflexivity.
  - cbn [map filter]. destruct (has_name (xml_country_info path)); reflexivity.
  - eapply Nat.le_trans; [apply filter_length_le|]. rewrite length_map. apply Nat.le_refl.
Qed.

(** X4.  What the filter keeps, in terms of the source attributes.  The XML
    strategy keeps a node exactly when its id, its first local-name attribute
    or its data-name_en is not empty: a node with an id is always kept, a
    node with only data-formal_en, data-type and data-sovereignt never.  The
    fallback strategy keeps a tag exactly when the name the chain gives it or
    its data-name_en is not empty. *)
Theorem kept_by_attributes (path : element) (path_tag : str) :
  has_name (xml_country_info path)
  = truthy (Dict.get_or path a_id [])
    || truthy (Dict.get_or path a_name_zht (Dict.get_or path a_name_zh []))
    || truthy (Dict.get_or path a_name_en [])
  /\ has_name (regex_country_info path_tag)
     = truthy (regex_chain path_tag)
       || truthy (match Regex.search_attr a_name_en path_tag with
                  | Some v => v
                  | None => []
                  end).
Proof.
  split.
  - unfold xml_country_info, Dict.get_or.
    split_attributes (Dict.get path); reflexivity.
  - unfold regex_country_info, regex_chain, regex_id, fallback_chain, set_if_match.
    destruct (Regex.search_attr a_id path_tag) as [[|? ?]|];
      destruct (Regex.search_attr a_name_zht path_tag) as [[|? ?]|];
      destruct (Regex.search_attr a_name_zh path_tag) as [[|? ?]|];
      destruct (Regex.search_attr a_name_en path_tag) as [[|? ?]|];
      destruct (Regex.search_attr a_formal_en path_tag) as [?|];
      destruct (Regex.search_attr a_type path_tag) as [?|];
      destruct (Regex.search_attr a_sovereignt path_tag) as [?|]; reflexivity.
Qed.

(** X5.  The fields without a fallback are copied as they are.  In a record
    of the XML strategy id, name_en, formal_en, type and sovereignty are the
    values of id, data-name_en, data-formal_en, data-type and
    data-sovereignt, or the empty text for an attribute the node lacks.  In a
    record of the fallback strategy each of these keys is present exactly
    when its pattern matches, with group 1 as its value. *)
Theorem plain_fields_copied (path : element) (path_tag : str) :
  (Dict.get (xml_country_info path) f_id = Some (Dict.get_or path a_id [])
   /\ Dict.get (xml_country_info path) f_name_en = Some (Dict.get_or path a_name_en [])
   /\ Dict.get (xml_country_info path) f_formal_en
      = Some (Dict.get_or path a_formal_en [])
   /\ Dict.get (xml_country_info path) f_type = Some (Dict.get_or path a_type [])
   /\ Dict.get (xml_country_info path) f_sovereignty
      = Some (Dict.get_or path a_sovereignt []))
  /\ (Dict.get (regex_country_info path_tag) f_id = Regex.search_attr a_id path_tag
      /\ Dict.get (regex_country_info path_tag) f_name_en
         = Regex.search_attr a_name_en path_tag
      /\ Dict.get (regex_country_info path_tag) f_formal_en
         = Regex.search_attr a_formal_en path_tag
      /\ Dict.get (regex_country_info path_tag) f_type
         = Regex.search_attr a_type path_tag
      /\ Dict.get (regex_country_info path_tag) f_sovereignty
         = Regex.search_attr a_sovereignt path_tag).
Proof.
  split.
  - unfold xml_country_info, Dict.get_or.
    split_attributes (Dict.get path); repeat split; reflexivity.
  - unfold regex_country_info, set_if_match.
    split_attributes (fun a => Regex.search_attr a path_tag);
      repeat split; reflexivity.
Qed.

(** ** The console table: limits and widths *)

(** X6.  With a positive limit the table shows the records before the limit,
    numbered from 1: as many rows as the smaller of the limit and the number
    of records, and the omitted-count line exactly when the limit is below
    the number of records. *)
Theorem table_with_positive_limit (countries : list record) (z : Z) :
  (0 < z)%Z ->
  table_lines countries (Some z)
  = table_head countries
    ++ table_rows 1 (firstn (Z.to_nat z) countries)
    ++ (if (z <? Z.of_nat (length countries))%Z then [omitted_line countries z] else [])
  /\ length (table_rows 1 (firstn (Z.to_nat z) countries))
     = Nat.min (Z.to_nat z) (length countries).
Proof.
  intros Hz. split.
  - unfold table_lines, table_head, limit_given, slice_to.
    destruct (z =? 0)%Z eqn:E0; [apply Z.eqb_eq in E0; lia|].
    destruct (z <? 0)%Z eqn:E1; [apply Z.ltb_lt in E1; lia|].
    cbn [negb andb]. reflexivity.
  - rewrite table_rows_length. apply length_firstn.
Qed.

Lemma table_with_positive_limit_witness :
  table_lines sample_records (Some 1%Z)
  = table_head sample_records
    ++ table_rows 1 (firstn (Z.to_nat 1) sample_records)
    ++ (if (1 <? Z.of_nat (length sample_records))%Z
        then [omitted_line sample_records 1] else [])
  /\ length (table_rows 1 (firstn (Z.to_nat 1) sample_records))
     = Nat.min (Z.to_nat 1) (length sample_records).
Proof. apply (table_with_positive_limit sample_records 1%Z). lia. Defined.

(** X7.  A negative limit is taken as a slice bound: the rows of the last
    records are left out, as many as the limit is below zero, and the
    omitted-count line is always printed, with the number of records plus
    that many as its count. *)
Theorem table_with_negative_limit (countries : list record) (z : Z) :
  (z < 0)%Z ->
  table_lines countries (Some z)
  = table_head countries
    ++ table_rows 1 (firstn (length countries - Z.to_nat (- z)) countries)
    ++ [py "... 还有 " ++ str_of_N (N.of_nat (length countries) + Z.to_N (- z))
        ++ py " 个国家未显示"].
Proof.
  intros Hz. unfold table_lines, table_head, limit_given, slice_to, omitted_line.
  destruct (z =? 0)%Z eqn:E0; [apply Z.eqb_eq in E0; lia|].
  destruct (z <? 0)%Z eqn:E1; [|apply Z.ltb_ge in E1; lia].
  destruct (z <? Z.of_nat (length countries))%Z eqn:E2; [|apply Z.ltb_ge in E2; lia].
  cbn [negb andb].
  replace (Z.to_nat (Z.of_nat (length countries) + z))
    with (length countries - Z.to_nat (- z))%nat by lia.
  assert (Hs : str_of_Z (Z.of_nat (length countries) - z)
               = str_of_N (N.of_nat (length countries) + Z.to_N (- z))).
  { unfold str_of_Z.
    destruct (Z.of_nat (length countries) - z)%Z eqn:E; try lia.
    f_equal. lia. }
  rewrite Hs. reflexivity.
Qed.

Lemma table_with_negative_limit_witness :
  table_lines sample_records (Some (-1)%Z)
  = table_head sample_records
    ++ table_rows 1 (firstn (length sample_records - Z.to_nat (- (-1))) sample_records)
    ++ [py "... 还有 " ++ str_of_N (N.of_nat (length sample_records) + Z.to_N (- (-1)))
        ++ py " 个国家未显示"].
Proof. apply (table_with_negative_limit sample_records (-1)%Z). lia. Defined.




(** ** The type count *)

Lemma get_set_same {V : Type} (d : Dict.dict V) (k : str) (v : V) :
  Dict.get (Dict.set d k v) k = Some v.
Proof.
  induction d as [|[k' v'] d IH]; cbn [Dict.set Dict.get].
  - rewrite str_eqb_refl. reflexivity.
  - destruct (str_eqb k' k) eqn:E; cbn [Dict.get]; rewrite E; [reflexivity|exact IH].
Qed.

Lemma get_set_other {V : Type} (d : Dict.dict V) (k k' : str) (v : V) :
  str_eqb k k' = false -> Dict.get (Dict.set d k v) k' = Dict.get d k'.
Proof.
  intros Hne. induction d as [|[k0 v0] d IH]; cbn [Dict.set Dict.get].
  - rewrite Hne. reflexivity.
  - destruct (str_eqb k0 k) eqn:E; cbn [Dict.get].
    + apply str_eqb_eq in E. subst k0. rewrite Hne. reflexivity.
    + destruct (str_eqb k0 k'); [reflexivity|exact IH].
Qed.

Lemma keys_set {V : Type} (d : Dict.dict V) (k : str) (v : V) :
  Dict.keys (Dict.set d k v)
  = if existsb (str_eqb k) (Dict.keys d) then Dict.keys d else Dict.keys d ++ [k].
Proof.
  induction d as [|[k' v'] d IH]; [reflexivity|].
  cbn [Dict.set Dict.keys map fst existsb]. rewrite (str_eqb_sym k k').
  destruct (str_eqb k' k) eqn:E; [reflexivity|].
  cbn [orb map fst]. fold (Dict.keys d). fold (Dict.keys (Dict.set d k v)).
  rewrite IH. destruct (existsb (str_eqb k) (Dict.keys d)); reflexivity.
Qed.

Lemma set_wf {V : Type} (d : Dict.dict V) (k : str) (v : V) :
  Dict.wf d -> Dict.wf (Dict.set d k v).
Proof.
  unfold Dict.wf. intros H. rewrite keys_set.
  destruct (existsb (str_eqb k) (Dict.keys d)) eqn:E; [exact H|].
  apply NoDup_app; [exact H|repeat constructor; intros []|].
  intros x Hx [Hk|[]]. subst x.
  assert (existsb (str_eqb k) (Dict.keys d) = true); [|congruence].
  apply existsb_exists. exists k. split; [exact Hx|apply str_eqb_refl].
Qed.

Lemma total_count_set (d : Dict.dict N) (k : str) :
  total_count (Dict.set d k (Dict.get_or d k 0 + 1)) = total_count d + 1.
Proof.
  unfold Dict.get_or. induction d as [|[k' v'] d IH]; cbn [Dict.set Dict.get].
  - reflexivity.
  - destruct (str_eqb k' k) eqn:E; cbn [total_count fold_right snd].
    + fold (total_count d). lia.
    + fold (total_count d).
      fold (total_count (Dict.set d k (match Dict.get d k with
                                       | Some v => v
                                       | None => 0
                                       end + 1))).
      rewrite IH. lia.
Qed.

Lemma count_types_fold (countries : list record) :
  count_types countries = fold_left count_step countries [].
Proof. reflexivity. Qed.

Lemma count_fold_get (countries : list record) (acc : Dict.dict N) (label : str) :
  Dict.get_or (fold_left count_step countries acc) label 0
  = Dict.get_or acc label 0
    + N.of_nat (length (filter (fun c => str_eqb (type_label c) label) countries)).
Proof.
  revert acc; induction countries as [|c cs IH]; intros acc; cbn [fold_left filter].
  - cbn [length]. lia.
  - rewrite IH. unfold count_step, Dict.get_or.
    destruct (str_eqb (type_label c) label) eqn:E.
    + apply str_eqb_eq in E. subst label. rewrite get_set_same.
      cbn [length]. lia.
    + rewrite (get_set_other _ _ _ _ E). lia.
Qed.

Lemma count_fold_total (countries : list record) (acc : Dict.dict N) :
  total_count (fold_left count_step countries acc)
  = total_count acc + N.of_nat (length countries).
Proof.
  revert acc; induction countries as [|c cs IH]; intros acc; cbn [fold_left length].
  - lia.
  - rewrite IH. unfold count_step. rewrite total_count_set. lia.
Qed.

Lemma count_fold_wf (countries : list record) (acc : Dict.dict N) :
  Dict.wf acc -> Dict.wf (fold_left count_step countries acc).
Proof.
  revert acc; induction countries as [|c cs IH]; intros acc H; cbn [fold_left];
    [exact H|]. apply IH. apply set_wf. exact H.
Qed.

(** X9.  The type count is a histogram of the records by label (the type, or
    the label for unknown when the record has no type key): the count stored
    for a label is the number of records with that label (0 for a label
    without an entry), the counts add up to the number of records, and each
    label has one entry. *)
Theorem count_types_histogram (countries : list record) (label : str) :
  Dict.get_or (count_types countries) label 0
  = N.of_nat (length (filter (fun c => str_eqb (type_label c) label) countries))
  /\ total_count (count_types countries) = N.of_nat (length countries)
  /\ Dict.wf (count_types countries).
Proof.
  rewrite count_types_fold. split; [|split].
  - rewrite count_fold_get. reflexivity.
  - rewrite count_fold_total. reflexivity.
  - apply count_fold_wf. constructor.
Qed.

Lemma insert_sorted_perm (x : str * N) (l : list (str * N)) :
  Permutation (insert_sorted x l) (x :: l).
Proof.
  induction l as [|y l IH]; cbn [insert_sorted]; [apply Permutation_refl|].
  destruct (item_leb x y); [apply Permutation_refl|].
  eapply Permutation_trans; [apply perm_skip; exact IH|apply perm_swap].
Qed.

Lemma sorted_items_perm (type_counts : Dict.dict N) :
  Permutation (sorted_items type_counts) type_counts.
Proof.
  unfold sorted_items. induction type_counts as [|x l IH]; cbn [fold_right];
    [constructor|].
  eapply Permutation_trans; [apply insert_sorted_perm|]. apply perm_skip. exact IH.
Qed.

Lemma sorted_distinct_strict (l : list (str * N)) :
  items_sorted l -> NoDup (map fst l) ->
  Sorted (fun a b => str_ltb (fst a) (fst b) = true) l.
Proof.
  unfold items_sorted. induction l as [|a l IH]; intros Hs Hn; [constructor|].
  inversion Hs as [|? ? Hs' Hh]; subst. inversion Hn as [|? ? Hna Hn']; subst.
  constructor; [apply IH; assumption|].
  destruct l as [|b l]; constructor.
  inversion Hh as [|? ? Hab]; subst. unfold item_leb in Hab.
  apply orb_true_iff in Hab. destruct Hab as [H|H]; [exact H|].
  apply andb_true_iff in H. destruct H as [H _]. apply str_eqb_eq in H.
  exfalso. apply Hna. left. symmetry. exact H.
Qed.

(** X10.  The type report has one line per label of the histogram, each with
    its count, and the lines come in strictly increasing order of label
    (code point by code point). *)
Theorem type_report_order (countries : list record) :
  type_report countries = map type_line (sorted_items (count_types countries))
  /\ Permutation (sorted_items (count_types countries)) (count_types countries)
  /\ Sorted (fun a b => str_ltb (fst a) (fst b) = true)
       (sorted_items (count_types countries))
  /\ length (type_report countries) = length (count_types countries).
Proof.
  pose proof (sorted_items_perm (count_types countries)) as Hp.
  split; [reflexivity|]. split; [exact Hp|]. split.
  - apply sorted_distinct_strict; [apply sorted_items_sorted|].
    apply (Permutation_NoDup (l := map fst (count_types countries))).
    + apply Permutation_map. apply Permutation_sym. exact Hp.
    + rewrite count_types_fold. apply (count_fold_wf countries []). constructor.
  - unfold type_report. rewrite length_map. apply Permutation_length. exact Hp.
Qed.

(** ** The look-ups *)

Lemma starts_with_iff (p s : str) :
  starts_with p s = true <-> exists post, s = p ++ post.
Proof.
  unfold starts_with. split.
  - destruct (strip_prefix p s) as [r|] eqn:E; [|discriminate].
    intros _. exists r. apply strip_prefix_sound. exact E.
  - intros [post ->]. rewrite strip_prefix_app. reflexivity.
Qed.

Lemma contains_iff (p s : str) : contains p s = true <-> substring p s.
Proof.
  unfold substring. induction s as [|c s IH]; cbn [contains].
  - rewrite orb_false_r, starts_with_iff. split.
    + intros [post H]. exists [], post. exact H.
    + intros (pre & post & H). destruct pre as [|x pre]; [exists post; exact H|].
      discriminate H.
  - rewrite orb_true_iff, starts_with_iff, IH. split.
    + intros [[post H]|(pre & post & H)].
      * exists [], post. exact H.
      * exists (c :: pre), post. rewrite H. reflexivity.
    + intros (pre & post & H). destruct pre as [|x pre].
      * left. exists post. exact H.
      * right. injection H as _ H. exists pre, post. exact H.
Qed.

Lemma mentions_iff (term : str) (c : record) :
  mentions term c = true
  <-> substring term (Dict.get_or c f_name_zh [])
      \/ substring term (Dict.get_or c f_name_en []).
Proof. unfold mentions. rewrite orb_true_iff, !contains_iff. reflexivity. Qed.

Lemma search_line_filter (countries : list record) (term : str) :
  search_line countries term
  = match filter (mentions term) countries with
    | c :: _ => found_line term c
    | [] => not_found_line term
    end.
Proof. reflexivity. Qed.

Lemma found_is_not_not_found (term : str) (c : record) :
  found_line term c <> not_found_line term.
Proof.
  unfold found_line, not_found_line.
  change (py "  找到 '") with [32; 32; 25214; 21040; 32; 39].
  change (py "  未找到 '") with [32; 32; 26410; 25214; 21040; 32; 39].
  cbn [app]. discriminate.
Qed.

(** X11.  A look-up reports that nothing was found exactly when the term
    occurs in the name_zh and in the name_en of no record; otherwise it
    reports the names of the first record, in sequence order, in whose
    name_zh or name_en the term occurs. *)
Theorem search_line_first_match (countries : list record) (term : str) :
  (search_line countries term = not_found_line term
   <-> forall c, In c countries ->
                 ~ substring term (Dict.get_or c f_name_zh [])
                 /\ ~ substring term (Dict.get_or c f_name_en []))
  /\ (forall before c after,
        countries = before ++ c :: after ->
        (forall b, In b before -> mentions term b = false) ->
        substring term (Dict.get_or c f_name_zh [])
        \/ substring term (Dict.get_or c f_name_en []) ->
        search_line countries term = found_line term c).
Proof.
  rewrite search_line_filter. split.
  - split.
    + intros H c Hc.
      destruct (mentions term c) eqn:E.
      * assert (Hin : In c (filter (mentions term) countries))
          by (apply filter_In; split; assumption).
        destruct (filter (mentions term) countries) as [|c0 l]; [destruct Hin|].
        exfalso. exact (found_is_not_not_found term c0 H).
      * split; intros Hs;
          (assert (mentions term c = true) by (apply mentions_iff; tauto));
          congruence.
    + intros H. destruct (filter (mentions term) countries) as [|c0 l] eqn:E;
        [reflexivity|].
      assert (Hin : In c0 (filter (mentions term) countries))
        by (rewrite E; left; reflexivity).
      apply filter_In in Hin. destruct Hin as [Hin Hm].
      apply mentions_iff in Hm. specialize (H c0 Hin). tauto.
  - intros before c after -> Hb Hc.
    rewrite filter_app. 
    assert (E : filter (mentions term) before = []).
    { induction before as [|b before IH]; [reflexivity|].
      cbn [filter]. rewrite (Hb b (or_introl eq_refl)).
      apply IH. intros x Hx. apply Hb. right. exact Hx. }
    rewrite E. cbn [app filter].
    apply mentions_iff in Hc. rewrite Hc. reflexivity.
Qed.

Lemma search_line_first_match_witness :
  search_line sample_records (py "中") = found_line (py "中") (hd [] sample_records).
Proof.
  destruct (search_line_first_match sample_records (py "中")) as [_ H].
  apply (H [] (hd [] sample_records) (tl sample_records)).
  - reflexivity.
  - intros b [].
  - left. exists [], (py "国"). vm_compute. reflexivity.
Defined.

(** ** The writers and the whole run *)

Lemma save_to_csv_run
    (open_w : str -> option exn) (encode_error : str -> exn)
    (countries : list record) (output_file : str) (w : world) :
  save_to_csv open_w encode_error countries output_file w =
  match open_w output_file with
  | Some e => (printed w [csv_failure_notice e], Return tt)
  | None =>
    if encodable_str (bom :: fst (csv_text countries))
    then ({| console := console w ++ [saved_notice output_file];
             files := (output_file, Whole (bom :: fst (csv_text countries))) :: files w |},
          Return tt)
    else ({| console := console w
                        ++ [csv_failure_notice
                              (encode_error (bom :: fst (csv_text countries)))];
             files := (output_file, Prefix_of (bom :: fst (csv_text countries)))
                      :: files w |},
          Return tt)
  end.
Proof.
  unfold save_to_csv, try_except, bind, write_text, print, printed, encodable_str.
  rewrite csv_text_eq. cbn [fst]. rewrite with_bom_header.
  destruct (open_w output_file) as [e|]; [reflexivity|].
  destruct (forallb encodable _); reflexivity.
Qed.

(** X12.  Neither writer raises: each returns normally after printing one
    line, the saved notice or its failure notice.  When the file does not
    open no file is touched; when it opens, the writer's file is the only one
    added. *)
Theorem writers_contained
    (open_w : str -> option exn) (encode_error : str -> exn)
    (countries : list record) (output_file : str) (w : world) :
  (exists w',
     save_to_json open_w encode_error countries output_file w = (w', Return tt)
     /\ length (console w') = S (length (console w))
     /\ match open_w output_file with
        | Some e => w' = printed w [json_failure_notice e]
        | None => exists f, files w' = (output_file, f) :: files w
        end)
  /\ (exists w',
        save_to_csv open_w encode_error countries output_file w = (w', Return tt)
        /\ length (console w') = S (length (console w))
        /\ match open_w output_file with
           | Some e => w' = printed w [csv_failure_notice e]
           | None => exists f, files w' = (output_file, f) :: files w
           end).
Proof.
  split.
  - rewrite save_to_json_run. destruct (open_w output_file) as [e|].
    + eexists. split; [reflexivity|]. split; [|reflexivity].
      unfold printed. cbn [console]. rewrite length_app. cbn [length]. lia.
    + destruct (encodable_str (Json.dumps countries));
        (eexists; split; [reflexivity|]; split;
         [cbn [console]; rewrite length_app; cbn [length]; lia
         |eexists; reflexivity]).
  - rewrite save_to_csv_run. destruct (open_w output_file) as [e|].
    + eexists. split; [reflexivity|]. split; [|reflexivity].
      unfold printed. cbn [console]. rewrite length_app. cbn [length]. lia.
    + destruct (encodable_str (bom :: fst (csv_text countries)));
        (eexists; split; [reflexivity|]; split;
         [cbn [console]; rewrite length_app; cbn [length]; lia
         |eexists; reflexivity]).
Qed.

Lemma bind_run {A B : Type} (m : M A) (k : A -> M B) (w w' : world) (a : A) :
  m w = (w', Return a) -> bind m k w = k a w'.
Proof. intros H. unfold bind. rewrite H. reflexivity. Qed.

Lemma print_run (line : str) (w : world) : print line w = (printed w [line], Return tt).
Proof. reflexivity. Qed.

Lemma printed_app (w : world) (a b : list str) :
  printed (printed w a) b = printed w (a ++ b).
Proof. unfold printed. cbn [console files]. rewrite <- app_assoc. reflexivity. Qed.

Lemma for_each_print_map {A : Type} (f : A -> str) (xs : list A) (w : world) :
  for_each xs (fun x => print (f x)) w = (printed w (map f xs), Return tt).
Proof.
  revert w; induction xs as [|x xs IH]; intros w; cbn [for_each map].
  - unfold ret. rewrite printed_nil. reflexivity.
  - rewrite (bind_run _ _ _ _ _ (print_run (f x) w)). rewrite IH, printed_app.
    reflexivity.
Qed.

Lemma save_to_json_returns
    (open_w : str -> option exn) (encode_error : str -> exn)
    (countries : list record) (output_file : str) (w : world) :
  save_to_json open_w encode_error countries output_file w
  = (fst (save_to_json open_w encode_error countries output_file w), Return tt).
Proof.
  rewrite save_to_json_run. destruct (open_w output_file); [reflexivity|].
  destruct (encodable_str _); reflexivity.
Qed.

Lemma save_to_csv_returns
    (open_w : str -> option exn) (encode_error : str -> exn)
    (countries : list record) (output_file : str) (w : world) :
  save_to_csv open_w encode_error countries output_file w
  = (fst (save_to_csv open_w encode_error countries output_file w), Return tt).
Proof.
  rewrite save_to_csv_run. destruct (open_w output_file); [reflexivity|].
  destruct (encodable_str _); reflexivity.
Qed.

Lemma preview_at_most (countries : list record) :
  (length (table_lines countries (Some 10%Z)) <= 15)%nat.
Proof.
  unfold table_lines. cbn [limit_given Z.eqb negb andb]. unfold slice_to.
  cbn [Z.ltb Z.compare]. rewrite !length_app. cbn [length].
  rewrite table_rows_length, length_firstn.
  destruct (10 <? Z.of_nat (length countries))%Z; cbn [length]; lia.
Qed.

Lemma writers_json_csv
    (open_w : str -> option exn) (encode_error : str -> exn)
    (countries : list record) (w : world) :
  exists json_notice csv_notice : str,
    console (fst (save_to_csv open_w encode_error countries (py "countries.csv")
                    (fst (save_to_json open_w encode_error countries
                            (py "countries.json") w))))
    = console w ++ [json_notice; csv_notice]
    /\ (length (files (fst (save_to_csv open_w encode_error countries
                              (py "countries.csv")
                              (fst (save_to_json open_w encode_error countries
                                      (py "countries.json") w)))))
        <= 2 + length (files w))%nat.
Proof.
  rewrite save_to_json_run.
  destruct (open_w (py "countries.json")) as [e|];
    [|destruct (encodable_str (Json.dumps countries))];
    cbn [fst]; rewrite save_to_csv_run;
    (destruct (open_w (py "countries.csv")) as [e'|];
     [|destruct (encodable_str (bom :: fst (csv_text countries)))]);
    cbn [fst]; unfold printed; cbn [console files];
    eexists; eexists; (split; [rewrite <- app_assoc; reflexivity|cbn [length]; lia]).
Qed.

Section WholeRun.

Variable ET_parse : str -> outcome tree.
Variable read_text : str -> outcome str.
Variable open_w : str -> option exn.
Variable encode_error : str -> exn.

Lemma main_run (w : world) :
  main ET_parse read_text open_w encode_error w =
  match extract_countries_from_svg ET_parse read_text svg_file_path
          (printed w [start_notice]) with
  | (w1, Raise e) => (w1, Raise e)
  | (w1, Return []) => (printed w1 [nothing_notice], Return tt)
  | (w1, Return (c :: cs)) =>
    (after_main open_w encode_error (c :: cs) w1, Return tt)
  end.
Proof.
  unfold main, svg_file_path, start_notice, nothing_notice.
  rewrite (bind_run _ _ _ _ _ (print_run _ w)).
  unfold bind at 1.
  destruct (extract_countries_from_svg ET_parse read_text _ _) as [w1 [countries|e]];
    [|reflexivity].
  destruct countries as [|c cs]; [reflexivity|].
  set (countries := c :: cs).
  unfold after_main, preview_lines, report_lines, success_line.
  fold countries.
  rewrite (bind_run _ _ _ _ _ (print_run _ w1)).
  rewrite (bind_run _ _ _ _ _ (print_run _ _)).
  unfold print_countries_table.
  rewrite (bind_run _ _ _ _ _ (for_each_print _ _)).
  rewrite (bind_run _ _ _ _ _ (save_to_json_returns _ _ _ _ _)).
  rewrite (bind_run _ _ _ _ _ (save_to_csv_returns _ _ _ _ _)).
  rewrite (bind_run _ _ _ _ _ (print_run _ _)).
  rewrite (bind_run _ _ _ _ _ (for_each_print _ _)).
  rewrite (bind_run _ _ _ _ _ (print_run _ _)).
  rewrite for_each_print_map.
  unfold printed. cbn [console files]. rewrite <- !app_assoc. reflexivity.
Qed.

(** X13.  The whole run raises exactly when [ET.parse] raises something
    other than a ParseError for the map file; by then only the first message
    has been printed.  In every other case [main] returns normally. *)
Theorem main_raises_iff (w w' : world) (e : exn) :
  (main ET_parse read_text open_w encode_error w = (w', Raise e)
   <-> ET_parse svg_file_path = Raise e /\ kind e <> ParseError
       /\ w' = printed w [start_notice])
  /\ (forall w1 r, main ET_parse read_text open_w encode_error w = (w1, r) ->
                   r = Return tt \/ exists e1, r = Raise e1 /\ kind e1 <> ParseError).
Proof.
  rewrite main_run, svg_extraction_run. split.
  - split.
    + destruct (ET_parse svg_file_path) as [root|e0].
      * destruct (xml_countries (find_paths root)); discriminate.
      * destruct (kind e0) eqn:K.
        -- destruct (read_text svg_file_path) as [content|e1];
             [destruct (regex_countries content)|]; discriminate.
        -- intros [= <- <-]. rewrite K. repeat split. discriminate.
        -- intros [= <- <-]. rewrite K. repeat split. discriminate.
        -- intros [= <- <-]. rewrite K. repeat split. discriminate.
    + intros (Hp & Hk & ->). rewrite Hp.
      destruct (kind e); [congruence| | |]; reflexivity.
  - intros w1 r. destruct (ET_parse svg_file_path) as [root|e0].
    + destruct (xml_countries (find_paths root)); intros [= <- <-]; left; reflexivity.
    + destruct (kind e0) eqn:K.
      * destruct (read_text svg_file_path) as [content|e1];
          [destruct (regex_countries content)|]; intros [= <- <-]; left; reflexivity.
      * intros [= <- <-]. right. exists e0. rewrite K. split; [reflexivity|discriminate].
      * intros [= <- <-]. right. exists e0. rewrite K. split; [reflexivity|discriminate].
      * intros [= <- <-]. right. exists e0. rewrite K. split; [reflexivity|discriminate].
Qed.

(** X14.  When extraction finds no record the run prints the message that
    nothing was found and stops: no table, no report, and no file is
    written. *)
Theorem main_nothing_found (w w1 : world) :
  extract_countries_from_svg ET_parse read_text svg_file_path (printed w [start_notice])
  = (w1, Return []) ->
  main ET_parse read_text open_w encode_error w = (printed w1 [nothing_notice], Return tt)
  /\ files (printed w1 [nothing_notice]) = files w.
Proof.
  intros H. rewrite main_run, H. split; [reflexivity|].
  rewrite svg_extraction_run in H.
  destruct (ET_parse svg_file_path) as [root|e0].
  - inversion H; subst; reflexivity.
  - destruct (kind e0); try discriminate.
    destruct (read_text svg_file_path); inversion H; subst; reflexivity.
Qed.

(** X15.  When extraction gives at least one record the run returns
    normally, having printed, in this order, the preview (at most ten rows),
    one line of the JSON writer, one line of the CSV writer and the reports,
    and having added at most the two output files. *)
Theorem main_after_extraction (w w1 : world) (countries : list record) :
  extract_countries_from_svg ET_parse read_text svg_file_path (printed w [start_notice])
  = (w1, Return countries) ->
  countries <> [] ->
  exists (wf : world) (json_notice csv_notice : str),
    main ET_parse read_text open_w encode_error w = (wf, Return tt)
    /\ console wf
       = console w1 ++ preview_lines countries ++ [json_notice; csv_notice]
         ++ report_lines countries
    /\ (length (preview_lines countries) <= 17)%nat
    /\ (length (files wf) <= 2 + length (files w1))%nat.
Proof.
  intros H Hne. rewrite main_run, H.
  destruct countries as [|c cs]; [congruence|]. clear Hne.
  set (countries := c :: cs). unfold after_main.
  set (wp := printed w1 (preview_lines countries)).
  destruct (writers_json_csv open_w encode_error countries wp)
    as (jl & cl & Hc & Hf).
  eexists. exists jl, cl. split; [reflexivity|]. split; [|split].
  - unfold printed at 1. cbn [console]. rewrite Hc. unfold wp, printed.
    cbn [console]. rewrite <- !app_assoc. reflexivity.
  - unfold preview_lines. rewrite length_app. cbn [length].
    pose proof (preview_at_most countries). lia.
  - unfold printed at 1. cbn [files]. unfold wp, printed in Hf. cbn [files] in Hf.
    exact Hf.
Qed.

(** X16.  The writers do not depend on each other: when the JSON file does
    not open but the CSV file does, the run still writes the whole CSV text
    and prints the JSON failure notice and the CSV saved notice. *)
Theorem csv_written_despite_json_failure
    (w w1 : world) (countries : list record) (e : exn) :
  extract_countries_from_svg ET_parse read_text svg_file_path (printed w [start_notice])
  = (w1, Return countries) ->
  countries <> [] ->
  open_w (py "countries.json") = Some e ->
  open_w (py "countries.csv") = None ->
  encodable_str (fst (csv_text countries)) = true ->
  exists wf : world,
    main ET_parse read_text open_w encode_error w = (wf, Return tt)
    /\ files wf
       = (py "countries.csv", Whole (bom :: fst (csv_text countries))) :: files w1
    /\ In (json_failure_notice e) (console wf)
    /\ In (saved_notice (py "countries.csv")) (console wf).
Proof.
  intros H Hne Hj Hc Henc. rewrite main_run, H.
  destruct countries as [|c cs]; [congruence|]. clear Hne.
  set (countries := c :: cs) in *. unfold after_main.
  rewrite save_to_json_run, Hj. cbn [fst].
  rewrite save_to_csv_run, Hc.
  assert (Hb : encodable_str (bom :: fst (csv_text countries)) = true).
  { unfold encodable_str in *. cbn [forallb]. rewrite Henc. reflexivity. }
  rewrite Hb. cbn [fst].
  eexists. split; [reflexivity|]. unfold printed. cbn [console files].
  split; [reflexivity|]. split.
  - apply in_or_app. left. apply in_or_app. left. apply in_or_app. right.
    left. reflexivity.
  - apply in_or_app. left. apply in_or_app. right. left. reflexivity.
Qed.

End WholeRun.

Lemma main_raises_iff_witness :
  main (fun p => Raise (file_not_found p)) (fun _ => Return []) (fun _ => None)
    no_encode_error empty_world
  = (printed empty_world [start_notice], Raise (file_not_found svg_file_path)).
Proof.
  apply (main_raises_iff (fun p => Raise (file_not_found p)) (fun _ => Return [])
           (fun _ => None) no_encode_error empty_world
           (printed empty_world [start_notice]) (file_not_found svg_file_path)).
  repeat split. discriminate.
Defined.

Lemma main_nothing_found_witness :
  main (fun _ => Return lake_tree) (fun _ => Return []) (fun _ => None)
    no_encode_error empty_world
  = (printed (printed empty_world [start_notice]) [nothing_notice], Return tt)
  /\ files (printed (printed empty_world [start_notice]) [nothing_notice])
     = files empty_world.
Proof.
  apply (main_nothing_found (fun _ => Return lake_tree) (fun _ => Return [])
           (fun _ => None) no_encode_error empty_world
           (printed empty_world [start_notice])).
  vm_compute. reflexivity.
Defined.

Lemma main_after_extraction_witness :
  exists (wf : world) (json_notice csv_notice : str),
    main (fun _ => Return sample_tree) (fun _ => Return []) (fun _ => None)
      no_encode_error empty_world = (wf, Return tt)
    /\ console wf
       = console (printed empty_world [start_notice])
         ++ preview_lines (xml_countries (plain_paths sample_tree))
         ++ [json_notice; csv_notice]
         ++ report_lines (xml_countries (plain_paths sample_tree))
    /\ (length (preview_lines (xml_countries (plain_paths sample_tree))) <= 17)%nat
    /\ (length (files wf) <= 2 + length (files (printed empty_world [start_notice])))%nat.
Proof.
  apply (main_after_extraction (fun _ => Return sample_tree) (fun _ => Return [])
           (fun _ => None) no_encode_error empty_world
           (printed empty_world [start_notice])
           (xml_countries (plain_paths sample_tree))).
  - vm_compute. reflexivity.
  - vm_compute. discriminate.
Defined.

Lemma csv_written_despite_json_failure_witness :
  exists wf : world,
    main (fun _ => Return sample_tree) (fun _ => Return []) json_refused
      no_encode_error empty_world = (wf, Return tt)
    /\ files wf
       = (py "countries.csv",
          Whole (bom :: fst (csv_text (xml_countries (plain_paths sample_tree)))))
         :: files (printed empty_world [start_notice])
    /\ In (json_failure_notice
             {| kind := OSError; message := py "[Errno 13] Permission denied" |})
         (console wf)
    /\ In (saved_notice (py "countries.csv")) (console wf).
Proof.
  apply (csv_written_despite_json_failure (fun _ => Return sample_tree)
           (fun _ => Return []) json_refused no_encode_error empty_world
           (printed empty_world [start_notice])
           (xml_countries (plain_paths sample_tree))
           {| kind := OSError; message := py "[Errno 13] Permission denied" |}).
  - vm_compute. reflexivity.
  - vm_compute. discriminate.
  - vm_compute. reflexivity.
  - vm_compute. reflexivity.
  - vm_compute. reflexivity.
Defined.

(** ** What the tag pattern matches *)

Lemma fold_case_lt (c : char) : Regex.fold_case c = 60 -> c = 60.
Proof.
  unfold Regex.fold_case.
  destruct ((65 <=? c) && (c <=? 90)) eqn:E; [|tauto].
  apply andb_true_iff in E. destruct E as [E _]. apply N.leb_le in E. lia.
Qed.

Lemma strip_prefix_ci_sound (p s r : str) :
  Regex.strip_prefix_ci p s = Some r ->
  exists pre, s = pre ++ r /\ map Regex.fold_case pre = p.
Proof.
  revert s; induction p as [|x p IH]; intros s; cbn [Regex.strip_prefix_ci].
  - intros [= ->]. exists []. split; reflexivity.
  - destruct s as [|y s]; [discriminate|].
    destruct (x =? Regex.fold_case y) eqn:E; [|discriminate].
    apply N.eqb_eq in E. intros H. destruct (IH s H) as (pre & -> & Hp).
    exists (y :: pre). split; [reflexivity|]. cbn [map]. rewrite Hp, E. reflexivity.
Qed.

Lemma match_path_tag_sound (s m : str) :
  Regex.match_path_tag s = Some m ->
  (exists rest, s = m ++ rest) /\ tag_shape m /\ exists s', s = 60 :: s'.
Proof.
  unfold Regex.match_path_tag.
  destruct (Regex.strip_prefix_ci (py "<path") s) as [[|c r]|] eqn:E; try discriminate.
  destruct (Regex.is_space c) eqn:Hc; [|discriminate].
  destruct (Regex.until Regex.gt r) as [body|] eqn:Hu; [|discriminate].
  intros Hm.
  assert (Hm' : m = firstn 5 s ++ c :: body ++ [Regex.gt]) by congruence.
  clear Hm.
  destruct (strip_prefix_ci_sound _ _ _ E) as (pre & Hs & Hp).
  destruct (until_sound _ _ _ Hu) as (post & Hr & Hn).
  assert (Hlen : length pre = 5%nat).
  { rewrite <- (length_map Regex.fold_case), Hp. reflexivity. }
  assert (Hf : firstn 5 s = pre).
  { rewrite Hs, <- Hlen. rewrite firstn_app, Nat.sub_diag, firstn_all.
    cbn [firstn]. apply app_nil_r. }
  rewrite Hf in Hm'. subst m. split; [|split].
  - exists post. rewrite Hs, Hr. rewrite <- !app_assoc. cbn [app].
    rewrite <- !app_assoc. reflexivity.
  - exists pre, c, body. repeat split; assumption.
  - destruct pre as [|x pre]; [discriminate Hlen|].
    change (py "<path") with [60; 112; 97; 116; 104] in Hp.
    cbn [map] in Hp. injection Hp as Hx _.
    apply fold_case_lt in Hx. subst x. rewrite Hs. eexists. reflexivity.
Qed.

Lemma substring_cons (m s : str) (c : char) : substring m s -> substring m (c :: s).
Proof. intros (pre & post & ->). exists (c :: pre), post. reflexivity. Qed.

(** X17.  Every tag the fallback extractor hands to the attribute patterns
    is a piece of the file's text that begins with the element name in
    either case after the opening bracket, then a white-space code point,
    and that ends at the first [>] after it: the tag holds no other [>], so
    an attribute value with a [>] in it is cut there. *)
Theorem matched_tags_shape (content : str) :
  Forall (fun m => substring m content /\ tag_shape m)
    (Regex.findall_path_tags content).
Proof.
  unfold Regex.findall_path_tags. generalize 0%nat as skip.
  induction content as [|c s IH]; intros skip; [constructor|].
  assert (K : forall k, Forall (fun m => substring m (c :: s) /\ tag_shape m)
                          (Regex.findall_from k s)).
  { intros k. eapply Forall_impl; [|apply IH].
    cbv beta. intros m [H1 H2]. split; [apply substring_cons; exact H1|exact H2]. }
  cbn [Regex.findall_from]. destruct skip as [|k]; [|apply K].
  destruct (Regex.match_path_tag (c :: s)) as [m|] eqn:E; [|apply K].
  constructor; [|apply K].
  destruct (match_path_tag_sound _ _ E) as ([rest Hr] & Hshape & _).
  split; [|exact Hshape]. exists [], rest. exact Hr.
Qed.

Lemma findall_from_bound (s : str) (skip : nat) :
  (length (Regex.findall_from skip s) <= opening_brackets s)%nat.
Proof.
  revert skip; induction s as [|c s IH]; intros skip; [apply Nat.le_refl|].
  assert (K : forall k, (length (Regex.findall_from k s)
                         <= opening_brackets (c :: s))%nat).
  { intros k. specialize (IH k). unfold opening_brackets in *. cbn [count_occ].
    destruct (N.eq_dec c 60); lia. }
  cbn [Regex.findall_from]. destruct skip as [|k]; [|apply K].
  destruct (Regex.match_path_tag (c :: s)) as [m|] eqn:E; [|apply K].
  destruct (match_path_tag_sound _ _ E) as (_ & _ & s' & Hs).
  injection Hs as -> _. unfold opening_brackets in *. cbn [length count_occ].
  destruct (N.eq_dec 60 60) as [_|n]; [|congruence].
  specialize (IH (length m - 1)%nat). lia.
Qed.

(** X18.  The fallback extractor gives at most one record per opening
    bracket in the text; a text without any, the empty text among them,
    gives no record. *)
Theorem regex_countries_bound (content : str) :
  (length (regex_countries content) <= opening_brackets content)%nat
  /\ (~ In 60 content -> regex_countries content = []).
Proof.
  assert (H : (length (regex_countries content) <= opening_brackets content)%nat).
  { unfold regex_countries, Regex.findall_path_tags.
    eapply Nat.le_trans; [apply filter_length_le|]. rewrite length_map.
    apply findall_from_bound. }
  split; [exact H|].
  intros Hn. apply (count_occ_not_In N.eq_dec) in Hn.
  unfold opening_brackets in H. rewrite Hn in H.
  destruct (regex_countries content); [reflexivity|cbn [length] in H; lia].
Qed.

Lemma regex_countries_bound_witness : regex_countries (py "no tags here") = [].
Proof.
  destruct (regex_countries_bound (py "no tags here")) as [_ H]. apply H.
  vm_compute. intuition discriminate.
Defined.

(** ** Reading the CSV text back *)

Import CsvReader.

Lemma quoted_body (f acc : str) (done : list str) (more : str) :
  read_record In_quoted acc done (Csv.double_quotes f ++ more)
  = read_record In_quoted (rev f ++ acc) done more.
Proof.
  revert acc; induction f as [|c f IH]; intros acc; [reflexivity|].
  unfold Csv.double_quotes. cbn [flat_map]. fold (Csv.double_quotes f).
  destruct (c =? 34) eqn:E.
  - apply N.eqb_eq in E. subst c. cbn [app read_record N.eqb Pos.eqb].
    rewrite IH. cbn [rev]. rewrite <- app_assoc. reflexivity.
  - cbn [app read_record]. rewrite E, IH. cbn [rev]. rewrite <- app_assoc.
    reflexivity.
Qed.

Lemma special_split (c : char) :
  Csv.special c = false ->
  is_newline c = false /\ (c =? 34) = false /\ (c =? 44) = false.
Proof.
  unfold Csv.special, is_newline. intros H.
  apply orb_false_iff in H. destruct H as [H H4].
  apply orb_false_iff in H. destruct H as [H H3].
  apply orb_false_iff in H. destruct H as [H1 H2].
  rewrite H3, H4. repeat split; assumption.
Qed.

Lemma plain_body (f acc : str) (done : list str) (more : str) :
  existsb Csv.special f = false ->
  read_record In_field acc done (f ++ more)
  = read_record In_field (rev f ++ acc) done more.
Proof.
  revert acc; induction f as [|c f IH]; intros acc H; [reflexivity|].
  cbn [existsb] in H. apply orb_false_iff in H. destruct H as [Hc Hf].
  destruct (special_split c Hc) as (H1 & H2 & H3).
  cbn [app read_record]. rewrite H1, H3, (IH _ Hf). cbn [rev].
  rewrite <- app_assoc. reflexivity.
Qed.

Lemma field_then_comma (st : state) (f : str) (done : list str) (more : str) :
  st = Start_record \/ st = Start_field ->
  read_record st [] done (Csv.format_field f ++ 44 :: more)
  = read_record Start_field [] (f :: done) more.
Proof.
  intros Hst. unfold Csv.format_field.
  destruct (existsb Csv.special f) eqn:E.
  - change (dq :: Csv.double_quotes f ++ [dq])
      with ([34] ++ Csv.double_quotes f ++ [34]).
    rewrite <- !app_assoc. cbn [app].
    destruct Hst as [-> | ->];
      cbn [read_record N.eqb Pos.eqb is_newline orb];
      rewrite quoted_body; cbn [read_record N.eqb Pos.eqb];
      rewrite app_nil_r, rev_involutive; reflexivity.
  - destruct f as [|c f].
    + destruct Hst as [-> | ->]; reflexivity.
    + cbn [existsb] in E. apply orb_false_iff in E. destruct E as [Hc Hf].
      destruct (special_split c Hc) as (H1 & H2 & H3).
      destruct Hst as [-> | ->];
        cbn [app read_record]; rewrite H1, H2, H3, (plain_body _ _ _ _ Hf);
        cbn [read_record is_newline N.eqb Pos.eqb orb];
        cbn [rev]; rewrite rev_app_distr, rev_involutive; reflexivity.
Qed.

Lemma field_then_end (f : str) (done : list str) (more : str) :
  read_record Start_field [] done (Csv.format_field f ++ Csv.crlf ++ more)
  = Some (rev (f :: done), more).
Proof.
  unfold Csv.format_field, Csv.crlf. cbn [app].
  destruct (existsb Csv.special f) eqn:E.
  - change (dq :: Csv.double_quotes f ++ [dq])
      with ([34] ++ Csv.double_quotes f ++ [34]).
    rewrite <- !app_assoc. cbn [app read_record N.eqb Pos.eqb is_newline orb].
    rewrite quoted_body.
    cbn [read_record N.eqb Pos.eqb is_newline orb eat_newline].
    rewrite app_nil_r, rev_involutive. reflexivity.
  - destruct f as [|c f].
    + reflexivity.
    + cbn [existsb] in E. apply orb_false_iff in E. destruct E as [Hc Hf].
      destruct (special_split c Hc) as (H1 & H2 & H3).
      cbn [app read_record]. rewrite H1, H2, H3, (plain_body _ _ _ _ Hf).
      cbn [read_record N.eqb Pos.eqb is_newline orb eat_newline].
      cbn [rev]. rewrite rev_app_distr, rev_involutive. reflexivity.
Qed.

Lemma csv_line_cons2 (f g : str) (fs : list str) :
  csv_line (f :: g :: fs) = Csv.format_field f ++ 44 :: csv_line (g :: fs).
Proof.
  unfold csv_line. cbn [map]. rewrite join_cons2. change (py ",") with [44].
  rewrite <- !app_assoc. reflexivity.
Qed.

Lemma row_rest (fs : list str) (f : str) (done : list str) (more : str) :
  read_record Start_field [] done (csv_line (f :: fs) ++ more)
  = Some (rev done ++ f :: fs, more).
Proof.
  revert f done; induction fs as [|g fs IH]; intros f done.
  - unfold csv_line. cbn [map Json.join]. rewrite <- app_assoc.
    rewrite field_then_end. cbn [rev]. reflexivity.
  - rewrite csv_line_cons2. cbn [app]. rewrite <- app_assoc. cbn [app].
    rewrite (field_then_comma Start_field) by (right; reflexivity).
    rewrite IH. cbn [rev]. rewrite <- app_assoc. reflexivity.
Qed.

Lemma row_read (f g : str) (fs : list str) (more : str) :
  read_record Start_record [] [] (csv_line (f :: g :: fs) ++ more)
  = Some (f :: g :: fs, more).
Proof.
  rewrite csv_line_cons2. rewrite <- app_assoc. cbn [app].
  rewrite (field_then_comma Start_record) by (left; reflexivity).
  rewrite row_rest. reflexivity.
Qed.

Lemma csv_line_length (row : list str) : (2 <= length (csv_line row))%nat.
Proof. unfold csv_line, Csv.crlf. rewrite length_app. cbn [length]. lia. Qed.

Lemma rows_read (rows : list (list str)) :
  Forall several_fields rows ->
  forall fuel, (length rows <= fuel)%nat ->
  read_records fuel (concat (map csv_line rows)) = Some rows.
Proof.
  induction rows as [|row rows IH]; intros Hall fuel Hf.
  - destruct fuel; reflexivity.
  - inversion Hall as [|? ? (f & g & fs & Hrow) Hrest]; subst.
    destruct fuel as [|fuel]; [cbn [length] in Hf; lia|].
    cbn [map concat].
    pose proof (csv_line_length (f :: g :: fs)) as Hlen.
    destruct (csv_line (f :: g :: fs) ++ concat (map csv_line rows)) as [|c s] eqn:E.
    + apply (f_equal (@length char)) in E. rewrite length_app in E.
      cbn [length] in E. lia.
    + cbn [read_records]. rewrite <- E. rewrite row_read.
      rewrite (IH Hrest fuel) by (cbn [length] in Hf; lia). reflexivity.
Qed.

Lemma rows_length (rows : list (list str)) :
  (length rows <= length (concat (map csv_line rows)))%nat.
Proof.
  induction rows as [|row rows IH]; [apply Nat.le_refl|].
  cbn [map concat length]. rewrite length_app.
  pose proof (csv_line_length row). lia.
Qed.

Lemma csv_header_line : csv_header = csv_line fields.
Proof. vm_compute. reflexivity. Qed.

Lemma csv_text_read (countries : list record) :
  CsvReader.reader (fst (csv_text countries))
  = Some (fields :: map csv_values countries).
Proof.
  rewrite csv_text_eq. cbn [fst]. rewrite csv_header_line.
  unfold CsvReader.reader.
  assert (E : csv_line fields
              ++ concat (map (fun country => csv_line (csv_values country)) countries)
              = concat (map csv_line (fields :: map csv_values countries))).
  { cbn [map concat]. rewrite map_map. reflexivity. }
  rewrite E. apply rows_read.
  - constructor.
    + unfold fields. do 3 eexists. reflexivity.
    + apply Forall_forall. intros row Hr. apply in_map_iff in Hr.
      destruct Hr as (c & <- & _). unfold csv_values, fields. cbn [map].
      do 3 eexists. reflexivity.
  - apply rows_length.
Qed.

(** C7.  Whatever keys the records carry, the CSV text is the header line
    id,name_zh,name_en,formal_en,type,sovereignty followed by one line per
    record, in order; a record's line is its six values under those columns,
    in that order and joined by commas, with the empty text for a field the
    record lacks; no row is refused.  The six values stay six columns
    whatever they hold: the line written for a record, read as CSV, is
    exactly its six values (a comma, a quote or a line break inside a value
    opens no column and no row), and the whole text reads back as the header
    followed by one six-column row per record, in order.  When the file
    opens and the text is encodable that text, after the byte order mark, is
    what the file holds. *)
Theorem csv_six_columns
    (open_w : str -> option exn) (encode_error : str -> exn)
    (countries : list record) (output_file : str) (w : world) :
  csv_text countries
  = (csv_header ++ concat (map (fun country => csv_line (csv_values country)) countries),
     None)
  /\ csv_line fields = csv_header
  /\ (forall country,
        csv_values country
        = [Dict.get_or country f_id []; Dict.get_or country f_name_zh [];
           Dict.get_or country f_name_en []; Dict.get_or country f_formal_en [];
           Dict.get_or country f_type []; Dict.get_or country f_sovereignty []])
  /\ (forall v1 v2 v3 v4 v5 v6,
        csv_line [v1; v2; v3; v4; v5; v6]
        = Csv.format_field v1 ++ py "," ++ Csv.format_field v2 ++ py ","
          ++ Csv.format_field v3 ++ py "," ++ Csv.format_field v4 ++ py ","
          ++ Csv.format_field v5 ++ py "," ++ Csv.format_field v6 ++ [13; 10])
  /\ (forall (country : record) (more : str),
        CsvReader.read_record CsvReader.Start_record [] []
          (csv_line (csv_values country) ++ more)
        = Some ([Dict.get_or country f_id []; Dict.get_or country f_name_zh [];
                 Dict.get_or country f_name_en []; Dict.get_or country f_formal_en [];
                 Dict.get_or country f_type []; Dict.get_or country f_sovereignty []],
                more))
  /\ CsvReader.reader (fst (csv_text countries))
     = Some (fields :: map csv_values countries)
  /\ Forall (fun row => length row = 6%nat) (fields :: map csv_values countries)
  /\ (open_w output_file = None ->
      encodable_str (fst (csv_text countries)) = true ->
      save_to_csv open_w encode_error countries output_file w
      = ({| console := console w ++ [saved_notice output_file];
            files := (output_file, Whole (bom :: fst (csv_text countries))) :: files w |},
         Return tt)).
Proof.
  split; [apply csv_text_eq|].
  split; [vm_compute; reflexivity|].
  split; [intros country; reflexivity|].
  split; [|split; [|split; [|split]]].
  - intros. unfold csv_line. cbn [map Json.join]. rewrite <- !app_assoc. reflexivity.
  - intros country more. unfold csv_values, fields. cbn [map]. apply row_read.
  - apply csv_text_read.
  - constructor; [reflexivity|]. apply Forall_forall. intros row Hr.
    apply in_map_iff in Hr. destruct Hr as (c & <- & _). reflexivity.
  - intros Hopen Henc. rewrite csv_text_eq in Henc |- *. cbn [fst] in Henc |- *.
    unfold save_to_csv, try_except, bind, write_text, print, saved_notice.
    rewrite csv_text_eq.
    rewrite with_bom_header, Hopen.
    unfold encodable_str in Henc. cbn [forallb].
    change (encodable bom) with true. cbn [andb]. rewrite Henc. reflexivity.
Qed.

Lemma csv_six_columns_witness :
  save_to_csv (fun _ => None) (fun _ => {| kind := UnicodeError; message := [] |})
    sample_records (py "countries.csv") empty_world
  = ({| console := console empty_world ++ [saved_notice (py "countries.csv")];
        files := (py "countries.csv", Whole (bom :: fst (csv_text sample_records)))
                 :: files empty_world |},
     Return tt).
Proof.
  apply (csv_six_columns (fun _ => None)
           (fun _ => {| kind := UnicodeError; message := [] |})
           sample_records (py "countries.csv") empty_world).
  - reflexivity.
  - vm_compute. reflexivity.
Defined.

Example comma_stays_in_its_column :
  CsvReader.reader
    (fst (csv_text [[(f_id, py "KOR"); (f_name_en, py "Korea, Rep.")]]))
  = Some [fields; [py "KOR"; []; py "Korea, Rep."; []; []; []]].
Proof. vm_compute. reflexivity. Qed.

(** X19.  Reading the CSV text back gives the header and then, for every
    record in order, its six values: commas, quotes and line breaks inside a
    value come back as they were, and every row has the six columns. *)
Theorem csv_round_trip (countries : list record) :
  CsvReader.reader (fst (csv_text countries))
  = Some (fields :: map csv_values countries)
  /\ Forall (fun row => length row = 6%nat) (fields :: map csv_values countries).
Proof.
  split.
  - rewrite csv_text_eq. cbn [fst]. rewrite csv_header_line.
    unfold CsvReader.reader.
    assert (E : csv_line fields
                ++ concat (map (fun country => csv_line (csv_values country)) countries)
                = concat (map csv_line (fields :: map csv_values countries))).
    { cbn [map concat]. rewrite map_map. reflexivity. }
    rewrite E. apply rows_read.
    + constructor.
      * unfold fields. do 3 eexists. reflexivity.
      * apply Forall_forall. intros row Hr. apply in_map_iff in Hr.
        destruct Hr as (c & <- & _). unfold csv_values, fields. cbn [map].
        do 3 eexists. reflexivity.
    + apply rows_length.
  - constructor; [reflexivity|]. apply Forall_forall. intros row Hr.
    apply in_map_iff in Hr. destruct Hr as (c & <- & _). reflexivity.
Qed.

Example csv_round_trip_sample :
  CsvReader.reader (fst (csv_text sample_records))
  = Some [fields;
          [py "CHN"; py "中国"; py "China"; 34 :: 92 :: 9 :: 1 :: py "People's Republic";
           []; py "China"];
          [py "XYZ"; py "XYZ"; []; []; []; []]].
Proof. vm_compute. reflexivity. Qed.

(** ** The two output files agree *)

(** X20.  For a record of the XML strategy the CSV row under the header is
    the record itself, field by field and in the same order, so the CSV file
    and the JSON file carry the same data; for any other record the row is
    the record with the fields it lacks set to the empty text and any other
    key left out. *)
Theorem csv_row_is_record (path : element) (country : record) :
  combine fields (csv_values (xml_country_info path)) = xml_country_info path
  /\ combine fields (csv_values country) = normalize country
  /\ csv_row country = normalize country.
Proof.
  split; [|split].
  - unfold csv_values, xml_country_info, Dict.get_or.
    split_attributes (Dict.get path); reflexivity.
  - reflexivity.
  - rewrite csv_row_values. reflexivity.
Qed.

(** X21.  Extraction has no effect but its messages: whatever it returns or
    raises, no file has been written, and at most two lines have been
    printed (the fallback notice and the read-failure notice), none when the
    document parses. *)
Theorem extraction_effects
    (ET_parse : str -> outcome tree) (read_text : str -> outcome str)
    (file_path : str) (w w' : world) (r : outcome (list record)) :
  extract_countries_from_svg ET_parse read_text file_path w = (w', r) ->
  files w' = files w
  /\ exists lines,
       console w' = console w ++ lines
       /\ (length lines <= 2)%nat
       /\ match ET_parse file_path with
          | Return _ => lines = []
          | Raise _ => True
          end.
Proof.
  rewrite svg_extraction_run.
  destruct (ET_parse file_path) as [root|e].
  - intros [= <- _]. split; [reflexivity|]. exists []. rewrite app_nil_r.
    repeat split. cbn [length]. lia.
  - destruct (kind e).
    + destruct (read_text file_path) as [content|e']; intros [= <- _];
        (split; [reflexivity|]); eexists; (split; [reflexivity|]);
        cbn [length]; split; [lia|exact I|lia|exact I].
    + intros [= <- _]. split; [reflexivity|]. exists []. rewrite app_nil_r.
      repeat split. cbn [length]. lia.
    + intros [= <- _]. split; [reflexivity|]. exists []. rewrite app_nil_r.
      repeat split. cbn [length]. lia.
    + intros [= <- _]. split; [reflexivity|]. exists []. rewrite app_nil_r.
      repeat split. cbn [length]. lia.
Qed.

Lemma extraction_effects_witness :
  files (printed empty_world [fallback_notice]) = files empty_world
  /\ exists lines,
       console (printed empty_world [fallback_notice]) = console empty_world ++ lines
       /\ (length lines <= 2)%nat
       /\ match two_files_parse id_only_nodes (py "broken.svg") with
          | Return _ => lines = []
          | Raise _ => True
          end.
Proof.
  apply (extraction_effects (two_files_parse id_only_nodes)
           (two_files_read id_only_text) (py "broken.svg")
           empty_world (printed empty_world [fallback_notice])
           (Return [[(f_id, py "XYZ"); (f_name_zh, py "XYZ")]])).
  vm_compute. reflexivity.
Defined.
